(** * Automated EDA dashboards (app.py, app1.py, app2.py)

    The three Dash applications upload one CSV file and show five views of
    it: a preview, a correlation heat map, box plots with IQR outliers,
    missing-value counts and duplicate records.  Every computation is a call
    into pandas on the frame built by [pd.read_csv] (app1, app2) or rebuilt
    by [pd.DataFrame] from the records kept in [dcc.Store] (app).

    The development has three layers:
    - [Pandas]: the frame, and the pandas calls the callbacks make, each
      following what the library does (type inference of [read_csv], the
      linear percentile of numpy, the one-pass sums of [nancorr]);
    - [App], [App1], [App2]: the callbacks of the three source files;
    - the properties of the analysis the callbacks perform.

    Numbers are exact rationals ([Q]); the value [NaN] of a float is kept
    apart.  Correlation coefficients, which need a square root, are real
    numbers.  Rounding of binary floating point is not modelled. *)

From Stdlib Require Import String Ascii List Bool Arith ZArith QArith Qround.
From Stdlib Require Import Lia Lra Permutation Sorted Reals Qreals.
From Stdlib Require Lqa.
Import ListNotations.

Set Implicit Arguments.
Close Scope Q_scope.

(* ================================================================== *)
(** * Python values and exceptions *)
(* ================================================================== *)

(** A scalar of a frame: a number, a text, or a missing value
    ([NaN] in a numeric column, [NaN]/[None] in an object column). *)
Inductive cell : Type :=
| Num (q : Q)
| Str (s : string)
| NA.

(** The two classes of column dtype that [select_dtypes("number")] tells
    apart: int64/float64, and object. *)
Inductive dtype : Type := Number | Object.

(** A float result: a rational, or NaN. *)
Inductive float : Type :=
| NaN
| Fin (q : Q).

(** The Python exceptions that the modelled calls raise. *)
Inductive exn : Type :=
| KeyError (key : string)
| TypeError
| IndexError
| ValueError
| EmptyDataError
| ParserError.

Inductive result (A : Type) : Type :=
| Ok (a : A)
| Raise (e : exn).

Arguments Ok {A} a.
Arguments Raise {A} e.

Definition bind {A B : Type} (r : result A) (k : A -> result B) : result B :=
  match r with
  | Ok a => k a
  | Raise e => Raise e
  end.

Notation "x <- r ;; k" := (bind r (fun x => k))
  (at level 61, r at next level, right associativity).

Definition raises {A : Type} (r : result A) : Prop := exists e, r = Raise e.

(** ** Float arithmetic with NaN *)

Definition fsub (a b : float) : float :=
  match a, b with
  | Fin x, Fin y => Fin (x - y)%Q
  | _, _ => NaN
  end.

Definition fadd (a b : float) : float :=
  match a, b with
  | Fin x, Fin y => Fin (x + y)%Q
  | _, _ => NaN
  end.

Definition fmul (a b : float) : float :=
  match a, b with
  | Fin x, Fin y => Fin (x * y)%Q
  | _, _ => NaN
  end.

(** Comparisons with NaN are false. *)
Definition fltb (a b : float) : bool :=
  match a, b with
  | Fin x, Fin y => negb (Qle_bool y x)
  | _, _ => false
  end.

Definition fgtb (a b : float) : bool := fltb b a.

(** Equality of floats up to the representation of the fraction. *)
Definition feq (a b : float) : Prop :=
  match a, b with
  | NaN, NaN => True
  | Fin x, Fin y => (x == y)%Q
  | _, _ => False
  end.

Definition flt (a b : float) : Prop :=
  match a, b with
  | Fin x, Fin y => (x < y)%Q
  | _, _ => False
  end.

(** ** Cells *)

Definition isna (c : cell) : bool :=
  match c with NA => true | _ => false end.

Definition notna (c : cell) : bool := negb (isna c).

Definition is_str (c : cell) : bool :=
  match c with Str _ => true | _ => false end.

Definition is_num (c : cell) : bool :=
  match c with Num _ => true | _ => false end.

(** Equality of two cells as [duplicated] sees it: equal numbers, equal
    texts, and a missing value equal to a missing value. *)
Definition cell_eqb (a b : cell) : bool :=
  match a, b with
  | Num x, Num y => Qeq_bool x y
  | Str s, Str t => String.eqb s t
  | NA, NA => true
  | _, _ => false
  end.

Definition cell_eq (a b : cell) : Prop :=
  match a, b with
  | Num x, Num y => (x == y)%Q
  | Str s, Str t => s = t
  | NA, NA => True
  | _, _ => False
  end.

Definition row : Type := list cell.

Fixpoint row_eqb (r s : row) : bool :=
  match r, s with
  | [], [] => true
  | a :: r', b :: s' => cell_eqb a b && row_eqb r' s'
  | _, _ => false
  end.

(** Two rows are identical when they agree in every column. *)
Definition row_eq (r s : row) : Prop := Forall2 cell_eq r s.

(** The float of a numeric cell; a missing value is NaN. *)
Definition to_float (c : cell) : float :=
  match c with
  | Num q => Fin q
  | _ => NaN
  end.

(* ================================================================== *)
(** * The pandas calls *)
(* ================================================================== *)

(** The grammar of numbers of the CSV reader, kept abstract: [parse_number]
    gives the value of a field that reads as an integer or a float. *)
Class NumberGrammar : Type := parse_number : string -> option Q.

(** An uploaded file after decoding and tokenizing: the header line and
    the fields of each data line. *)
Record Csv : Type := mkCsv {
  csv_header : list string;
  csv_body : list (list string)
}.

Module Pandas.

(** A frame: the columns with their dtypes, and the rows. *)
Record DataFrame : Type := mkDataFrame {
  header : list (string * dtype);
  rows : list row
}.

Definition columns (df : DataFrame) : list string := map fst (header df).

(** [df.shape] *)
Definition shape (df : DataFrame) : nat * nat :=
  (length (rows df), length (header df)).

(** The cells of the column at position [j]. *)
Definition column_at (j : nat) (rs : list row) : list cell :=
  map (fun r => nth j r NA) rs.

Fixpoint index_of (name : string) (names : list string) : option nat :=
  match names with
  | [] => None
  | n :: names' =>
      if String.eqb name n then Some 0
      else option_map S (index_of name names')
  end.

(** [df[column]]: KeyError for a name that is not a column. *)
Definition getitem (df : DataFrame) (column : string) : result (list cell) :=
  match index_of column (columns df) with
  | Some j => Ok (column_at j (rows df))
  | None => Raise (KeyError column)
  end.

(** ** read_csv *)

(** The fields that [read_csv] reads as missing (its default list). *)
Definition na_values : list string :=
  [ ""; "#N/A"; "#N/A N/A"; "#NA"; "-1.#IND"; "-1.#QNAN"; "-NaN"; "-nan";
    "1.#IND"; "1.#QNAN"; "<NA>"; "N/A"; "NA"; "NULL"; "NaN"; "None";
    "n/a"; "nan"; "null" ]%string.

Definition is_na_field (f : string) : bool :=
  existsb (String.eqb f) na_values.

Section Reader.
Context {grammar : NumberGrammar}.

(** A field reads as a number. *)
Definition parses (f : string) : bool :=
  match parse_number f with Some _ => true | None => false end.

(** The dtype inferred for the fields of one column.  A file without
    data lines gives object columns; otherwise a column is numeric when
    every field that is not missing reads as a number. *)
Definition infer_dtype (fields : list string) : dtype :=
  match fields with
  | [] => Object
  | _ => if forallb (fun f => is_na_field f || parses f) fields
         then Number else Object
  end.

Definition convert (d : dtype) (f : string) : cell :=
  if is_na_field f then NA
  else match d with
       | Number => match parse_number f with
                   | Some q => Num q
                   | None => NA
                   end
       | Object => Str f
       end.

(** The fields of column [j]; a short line is padded with missing
    fields. *)
Definition fields_at (j : nat) (body : list (list string)) : list string :=
  map (fun line => nth j line ""%string) body.

(** The dtype of every column of the file. *)
Definition column_dtypes (c : Csv) : list dtype :=
  map (fun j => infer_dtype (fields_at j (csv_body c)))
      (seq 0 (length (csv_header c))).

(** The cells of one data line, column by column. *)
Definition convert_line (dts : list dtype) (line : list string) : row :=
  map (fun jd => convert (snd jd) (nth (fst jd) line ""%string))
      (combine (seq 0 (length dts)) dts).

(** [pd.read_csv]: the first line names the columns (repeated names are
    taken as already made distinct).  An input without a header raises
    EmptyDataError; a line with more fields than the header is reported
    as ParserError. *)
Definition read_csv (c : Csv) : result DataFrame :=
  match csv_header c with
  | [] => Raise EmptyDataError
  | _ =>
      if existsb (fun line => length (csv_header c) <? length line)
                 (csv_body c)
      then Raise ParserError
      else Ok {| header := combine (csv_header c) (column_dtypes c);
                 rows := map (convert_line (column_dtypes c)) (csv_body c) |}
  end.
End Reader.

(** ** Selection *)

Definition dtype_eqb (a b : dtype) : bool :=
  match a, b with
  | Number, Number | Object, Object => true
  | _, _ => false
  end.

Definition dtype_in (d : dtype) (l : list dtype) : bool :=
  existsb (dtype_eqb d) l.

(** [df.select_dtypes(include=..., exclude=...)]: the columns whose dtype
    is included (all of them when [include] is empty) and not excluded,
    in the order of the frame. *)
Definition selected (include exclude : list dtype) (d : dtype) : bool :=
  (match include with [] => true | _ => dtype_in d include end)
  && negb (dtype_in d exclude).

Definition select_dtypes (include exclude : list dtype) (df : DataFrame)
  : DataFrame :=
  {| header := filter (fun h => selected include exclude (snd h)) (header df);
     rows := map (fun r =>
                    map snd
                        (filter (fun hc => selected include exclude
                                             (snd (fst hc)))
                                (combine (header df) r)))
                 (rows df) |}.

(** The positions of the names in the frame; KeyError for the first name
    that is not a column. *)
Fixpoint locate (names cols : list string) : result (list nat) :=
  match names with
  | [] => Ok []
  | n :: names' =>
      match index_of n cols with
      | None => Raise (KeyError n)
      | Some j => js <- locate names' cols ;; Ok (j :: js)
      end
  end.

(** [df[names]] for a list of column names. *)
Definition getitem_list (df : DataFrame) (names : list string)
  : result DataFrame :=
  js <- locate names (columns df) ;;
  Ok {| header := map (fun j => nth j (header df) (""%string, Object)) js;
        rows := map (fun r => map (fun j => nth j r NA) js) (rows df) |}.

(** [df[mask]] for a boolean series. *)
Definition getitem_mask (df : DataFrame) (mask : list bool) : DataFrame :=
  {| header := header df;
     rows := map fst (filter snd (combine (rows df) mask)) |}.

(** [df.head()] *)
Definition head (df : DataFrame) : DataFrame :=
  {| header := header df; rows := firstn 5 (rows df) |}.

(** [mask.sum()] of a boolean series. *)
Definition sum_bool (mask : list bool) : nat :=
  length (filter (fun b => b) mask).

(** ** Records *)

Definition record : Type := list (string * cell).

(** [df.to_dict("records")]: one dict per row, keyed by column name. *)
Definition to_dict_records (df : DataFrame) : list record :=
  map (fun r => combine (columns df) r) (rows df).

Fixpoint add_keys (acc ks : list string) : list string :=
  match ks with
  | [] => acc
  | k :: ks' =>
      add_keys (if existsb (String.eqb k) acc then acc else acc ++ [k]) ks'
  end.

(** The keys of the records in the order of their first appearance. *)
Definition record_keys (recs : list record) : list string :=
  fold_left (fun acc r => add_keys acc (map fst r)) recs [].

Fixpoint lookup (k : string) (r : record) : cell :=
  match r with
  | [] => NA
  | (k', v) :: r' => if String.eqb k k' then v else lookup k r'
  end.

(** The dtype of a column of Python objects: object when it holds a text,
    and also when it holds nothing but [None]; numeric otherwise. *)
Definition infer_objects (vals : list cell) : dtype :=
  if existsb is_str vals then Object
  else if existsb is_num vals then Number
  else Object.

(** [pd.DataFrame(records)] for a list of dicts.  The list comes back from
    [dcc.Store] as JSON, where a missing value is [null]. *)
Definition from_records (recs : list record) : DataFrame :=
  let cols := record_keys recs in
  let rs := map (fun r => map (fun k => lookup k r) cols) recs in
  {| header := map (fun jk => (snd jk, infer_objects (column_at (fst jk) rs)))
                   (combine (seq 0 (length cols)) cols);
     rows := rs |}.

(** ** Missing values *)

Definition count_na (s : list cell) : nat := length (filter isna s).

Definition count_notna (s : list cell) : nat := length (filter notna s).

(** [df.isnull().sum().reset_index()]: one line per column, in the order
    of the frame, with the number of missing cells of the column. *)
Definition isnull_sum (df : DataFrame) : list (string * nat) :=
  map (fun jn => (snd jn, count_na (column_at (fst jn) (rows df))))
      (combine (seq 0 (length (columns df))) (columns df)).

(** [df.count().sum()]: the number of cells that are not missing. *)
Definition count_sum (df : DataFrame) : nat :=
  list_sum (map (fun j => count_notna (column_at j (rows df)))
                (seq 0 (length (columns df)))).

(** ** Duplicates *)

(** [df.duplicated()] with [keep="first"]: reading the rows from the top,
    a row is marked when an equal row was seen before. *)
Fixpoint duplicated_from (seen rs : list row) : list bool :=
  match rs with
  | [] => []
  | r :: rs' => existsb (row_eqb r) seen :: duplicated_from (r :: seen) rs'
  end.

Definition duplicated (df : DataFrame) : list bool :=
  duplicated_from [] (rows df).

(** ** Quantiles *)

Local Open Scope Q_scope.

Fixpoint insert (x : Q) (l : list Q) : list Q :=
  match l with
  | [] => [x]
  | y :: l' => if Qle_bool x y then x :: l else y :: insert x l'
  end.

Definition sort (l : list Q) : list Q := fold_right insert [] l.

(** The numbers of a series, missing values dropped. *)
Definition dropna (s : list cell) : list Q :=
  flat_map (fun c => match c with Num q => [q] | _ => [] end) s.

(** numpy's [_lerp]. *)
Definition lerp (a b t : Q) : Q :=
  if Qle_bool (1 # 2) t then b - (b - a) * (1 - t) else a + (b - a) * t.

Definition Zlen {A : Type} (l : list A) : Z := Z.of_nat (length l).

(** Python's [arr[i]], where a negative index counts from the end. *)
Definition item (arr : list Q) (i : Z) : Q :=
  nth (Z.to_nat (if (i <? 0)%Z then Zlen arr + i else i)%Z) arr 0.

(** [np.percentile] with the linear method on the sorted array of [n]
    values.  The virtual index is [(n - 1) * q]; the neighbours are its
    floor and the position after it; an index at or past the last position
    takes the last value twice (index -1), one before the first takes the
    first value twice; the weight is the distance from the virtual index
    to the index of the first neighbour. *)
Definition linear_quantile (arr : list Q) (q : Q) : Q :=
  let n := Zlen arr in
  let virtual := q * inject_Z (n - 1) in
  let above := Qle_bool (inject_Z (n - 1)) virtual in
  let below := negb (Qle_bool 0 virtual) in
  let bounded (i : Z) := if below then 0%Z else if above then (-1)%Z else i in
  let previous := bounded (Qfloor virtual) in
  let next := bounded (Qfloor virtual + 1)%Z in
  let gamma := virtual - inject_Z previous in
  lerp (item arr previous) (item arr next) gamma.

(** [series.quantile(q)]: missing values are skipped; a series without a
    value gives NaN; a text cannot be interpolated. *)
Definition quantile (s : list cell) (q : Q) : result float :=
  if existsb is_str s then Raise TypeError
  else match sort (dropna s) with
       | [] => Ok NaN
       | arr => Ok (Fin (linear_quantile arr q))
       end.

(** [series < bound] and [series > bound]: false on a missing value, and
    a TypeError between a text and a float. *)
Fixpoint series_lt (s : list cell) (bound : float) : result (list bool) :=
  match s with
  | [] => Ok []
  | Str _ :: _ => Raise TypeError
  | c :: s' => m <- series_lt s' bound ;; Ok (fltb (to_float c) bound :: m)
  end.

Fixpoint series_gt (s : list cell) (bound : float) : result (list bool) :=
  match s with
  | [] => Ok []
  | Str _ :: _ => Raise TypeError
  | c :: s' => m <- series_gt s' bound ;; Ok (fgtb (to_float c) bound :: m)
  end.

(** [a | b] of two boolean series. *)
Definition series_or (a b : list bool) : list bool :=
  map (fun p => fst p || snd p)%bool (combine a b).

(** ** Correlation *)

(** The running values of [nancorr] for one pair of columns (Welford's
    method): the number of observations, the two means, the two sums of
    squared deviations and the sum of the products of the deviations. *)
Record moments : Type := mkMoments {
  nobs : Z;
  meanx : Q;
  meany : Q;
  ssqdm_x : Q;
  ssqdm_y : Q;
  covxy : Q
}.

Definition no_moments : moments :=
  {| nobs := 0; meanx := 0; meany := 0;
     ssqdm_x := 0; ssqdm_y := 0; covxy := 0 |}.

(** One more row in which both columns hold a number. *)
Definition observe (m : moments) (vx vy : Q) : moments :=
  let nobs' := (nobs m + 1)%Z in
  let dx := vx - meanx m in
  let dy := vy - meany m in
  let meanx' := meanx m + 1 / inject_Z nobs' * dx in
  let meany' := meany m + 1 / inject_Z nobs' * dy in
  {| nobs := nobs';
     meanx := meanx';
     meany := meany';
     ssqdm_x := ssqdm_x m + (vx - meanx') * dx;
     ssqdm_y := ssqdm_y m + (vy - meany') * dy;
     covxy := covxy m + (vx - meanx') * dy |}.

(** The rows are read from the top; a row with a missing value in either
    column is skipped. *)
Definition scan (xs ys : list cell) : moments :=
  fold_left (fun m p => match p with
                        | (Num vx, Num vy) => observe m vx vy
                        | _ => m
                        end)
            (combine xs ys) no_moments.

Local Close Scope Q_scope.
Local Open Scope R_scope.

(** The value is kept within [-1, 1]. *)
Definition clip (val : R) : R :=
  if Rlt_dec 1 val then 1
  else if Rlt_dec val (-1) then -1
  else val.

(** One entry of [nancorr] with [min_periods = 1]; [None] stands for
    NaN. *)
Definition nancorr_entry (xs ys : list cell) : option R :=
  let m := scan xs ys in
  if (nobs m <? 1)%Z then None
  else
    let divisor := sqrt (Q2R (ssqdm_x m * ssqdm_y m)) in
    if Req_EM_T divisor 0 then None
    else Some (clip (Q2R (covxy m) / divisor)).

Local Close Scope R_scope.

(** A correlation matrix: the labels of its rows and columns, and its
    entries line by line. *)
Record CorrMatrix : Type := mkCorr {
  labels : list string;
  entries : list (list (option R))
}.

(** [df.corr()]: [nancorr] computes the entries on and below the diagonal
    and writes each of them at both places. *)
Definition corr (df : DataFrame) : CorrMatrix :=
  let k := length (header df) in
  let col j := column_at j (rows df) in
  {| labels := columns df;
     entries :=
       map (fun xi =>
              map (fun yi => if yi <=? xi
                             then nancorr_entry (col xi) (col yi)
                             else nancorr_entry (col yi) (col xi))
                  (seq 0 k))
           (seq 0 k) |}.

End Pandas.

(* ================================================================== *)
(** * Figures and page components *)
(* ================================================================== *)

Module Plotly.
Import Pandas.

(** A figure, by the data it draws. *)
Inductive figure : Type :=
| EmptyFigure                          (* {} *)
| NoData                               (* px.box(title="No data available") *)
| Box (df : DataFrame) (y : string)
| BoxWithPoints (df : DataFrame) (y : string) (points : DataFrame)
| Imshow (m : CorrMatrix)
| Bar (data : list (string * nat)).

(** [px.box(df, y=column)]: ValueError for a name that is not a column. *)
Definition px_box (df : DataFrame) (column : string) : result figure :=
  match index_of column (columns df) with
  | Some _ => Ok (Box df column)
  | None => Raise ValueError
  end.

End Plotly.

Module Dash.
Import Pandas Plotly.

(** The CSS display of a component. *)
Inductive display : Type := DisplayNone | DisplayBlock.

(** The overview panel: the preview table and the counts under it. *)
Record overview : Type := mkOverview {
  preview : list record;
  table_columns : list string;
  total_rows : nat;
  total_columns : nat;
  numerical_columns : option nat;
  categorical_columns : option nat
}.

(** What a callback puts in the [tab-content] division. *)
Inductive component : Type :=
| Alert (kind message : string)
| OverviewPanel (o : overview)
| Graph (fig : figure)
| BoxplotPanel (dropdown : option (list string * option string))
| DuplicatePanel (duplicate_count : nat)
                 (table : option (list record * list string)).

End Dash.

Import Pandas Plotly Dash.
Local Open Scope string_scope.

(** The duplicates tab is the same in the three files. *)
Definition duplicates_panel (df : DataFrame) : component :=
  let duplicate_count := sum_bool (duplicated df) in
  DuplicatePanel duplicate_count
    (if (0 <? duplicate_count)%nat
     then Some (to_dict_records (getitem_mask df (duplicated df)), columns df)
     else None).

Definition upload_prompt : component :=
  Alert "info" "Please upload a CSV file to begin EDA.".

Definition tab_not_found : component := Alert "danger" "Tab Not Found".

(* ================================================================== *)
(** * app.py: the frame is kept as records in [dcc.Store] *)
(* ================================================================== *)

Module App.
Section Callbacks.
Context {grammar : NumberGrammar}.

(** [process_file] (app.py, lines 56-64): nothing is stored without an
    upload; otherwise the records of the parsed frame. *)
Definition process_file (contents : option Csv)
  : result (option (list record)) :=
  match contents with
  | None => Ok None
  | Some c => df <- read_csv c ;; Ok (Some (to_dict_records df))
  end.

(** [render_tab] (app.py, lines 72-129). *)
Definition render_tab (selected_tab : string) (data : option (list record))
  : result component :=
  match data with
  | None => Ok upload_prompt
  | Some d =>
      let df := from_records d in
      let num_cols := columns (select_dtypes [Number] [] df) in
      let cat_cols := columns (select_dtypes [] [Number] df) in
      if selected_tab =? "overview" then
        Ok (OverviewPanel
              {| preview := to_dict_records (head df);
                 table_columns := columns df;
                 total_rows := fst (shape df);
                 total_columns := snd (shape df);
                 numerical_columns := Some (length num_cols);
                 categorical_columns := Some (length cat_cols) |})
      else if selected_tab =? "correlation" then
        match num_cols with
        | [] => Ok (Alert "warning"
                      "No numerical columns available for correlation.")
        | _ => sub <- getitem_list df num_cols ;;
               Ok (Graph (Imshow (corr sub)))
        end
      else if selected_tab =? "boxplots" then
        match num_cols with
        | [] => Raise IndexError                      (* num_cols[0] *)
        | first :: _ => Ok (BoxplotPanel (Some (num_cols, Some first)))
        end
      else if selected_tab =? "missing" then
        Ok (Graph (Bar (isnull_sum df)))
      else if selected_tab =? "duplicates" then
        Ok (duplicates_panel df)
      else Ok tab_not_found
  end.

(** [update_boxplot] (app.py, lines 138-144). *)
Definition update_boxplot (column : option string)
           (data : option (list record)) : result figure :=
  match data, column with
  | Some d, Some col => px_box (from_records d) col
  | _, _ => Ok NoData
  end.
End Callbacks.
End App.

(* ================================================================== *)
(** * app1.py: the upload is parsed again on every interaction *)
(* ================================================================== *)

Module App1.
Section Callbacks.
Context {grammar : NumberGrammar}.

(** [parse_contents] (app1.py, lines 54-58); the payload is taken after
    base64 and UTF-8 decoding. *)
Definition parse_contents (contents : Csv) : result DataFrame :=
  read_csv contents.

(** [render_tab] (app1.py, lines 66-121): the tab and the options of
    the column filter, which are all the columns. *)
Definition render_tab (selected_tab : string) (contents : option Csv)
  : result (component * list string) :=
  match contents with
  | None => Ok (upload_prompt, [])
  | Some c =>
      df <- parse_contents c ;;
      let num_cols := columns (select_dtypes [Number] [] df) in
      let cat_cols := columns (select_dtypes [] [Number] df) in
      let column_options := columns df in
      if selected_tab =? "overview" then
        Ok (OverviewPanel
              {| preview := to_dict_records (head df);
                 table_columns := columns df;
                 total_rows := fst (shape df);
                 total_columns := snd (shape df);
                 numerical_columns := Some (length num_cols);
                 categorical_columns := Some (length cat_cols) |},
            column_options)
      else if selected_tab =? "correlation" then
        sub <- getitem_list df num_cols ;;
        Ok (Graph (Imshow (corr sub)), column_options)
      else if selected_tab =? "boxplots" then
        Ok (BoxplotPanel (Some (column_options, None)), column_options)
      else if selected_tab =? "missing" then
        Ok (Graph (Bar (isnull_sum df)), column_options)
      else if selected_tab =? "duplicates" then
        Ok (duplicates_panel df, column_options)
      else Ok (tab_not_found, column_options)
  end.

(** [update_boxplot] (app1.py, lines 129-135). *)
Definition update_boxplot (column : option string) (contents : option Csv)
  : result figure :=
  match contents, column with
  | Some c, Some col => df <- parse_contents c ;; px_box df col
  | _, _ => Ok EmptyFigure
  end.

(** [toggle_dark_mode] (app1.py, lines 144-145). *)
Definition toggle_dark_mode (n : nat) : string :=
  if (n mod 2 =? 1)%nat then "dark" else "secondary".
End Callbacks.
End App1.

(* ================================================================== *)
(** * app2.py: box plots with the IQR outliers drawn over them *)
(* ================================================================== *)

Module App2.

(** The values that [update_boxplot] computes for a column. *)
Record OutlierReport : Type := mkReport {
  Q1 : float;
  Q3 : float;
  IQR : float;
  lower_bound : float;
  upper_bound : float;
  outliers : DataFrame
}.

(** Outlier detection using IQR: the body of [update_boxplot] (app2.py,
    lines 131-137).  [0.25], [0.75] and [1.5] are the fractions 1/4, 3/4
    and 3/2. *)
Definition outlier_detection (df : DataFrame) (column : string)
  : result OutlierReport :=
  s <- getitem df column ;;
  q1 <- quantile s (1 # 4) ;;
  q3 <- quantile s (3 # 4) ;;
  let iqr := fsub q3 q1 in
  let lower := fsub q1 (fmul (Fin (3 # 2)) iqr) in
  let upper := fadd q3 (fmul (Fin (3 # 2)) iqr) in
  below <- series_lt s lower ;;
  above <- series_gt s upper ;;
  Ok {| Q1 := q1; Q3 := q3; IQR := iqr;
        lower_bound := lower; upper_bound := upper;
        outliers := getitem_mask df (series_or below above) |}.

Section Callbacks.
Context {grammar : NumberGrammar}.

(** [parse_contents] (app2.py, lines 57-61). *)
Definition parse_contents (contents : Csv) : result DataFrame :=
  read_csv contents.

(** [render_tab] (app2.py, lines 69-117): the tab, the options of the
    box plot dropdown (the numeric columns) and its display. *)
Definition render_tab (selected_tab : string) (contents : option Csv)
  : result (component * list string * display) :=
  match contents with
  | None => Ok (upload_prompt, [], DisplayNone)
  | Some c =>
      df <- parse_contents c ;;
      let num_cols := columns (select_dtypes [Number] [] df) in
      let column_options := num_cols in
      if selected_tab =? "overview" then
        Ok (OverviewPanel
              {| preview := to_dict_records (head df);
                 table_columns := columns df;
                 total_rows := fst (shape df);
                 total_columns := snd (shape df);
                 numerical_columns := None;
                 categorical_columns := None |},
            [], DisplayNone)
      else if selected_tab =? "correlation" then
        sub <- getitem_list df num_cols ;;
        Ok (Graph (Imshow (corr sub)), [], DisplayNone)
      else if selected_tab =? "boxplots" then
        Ok (BoxplotPanel None, column_options, DisplayBlock)
      else if selected_tab =? "missing" then
        Ok (Graph (Bar (isnull_sum df)), [], DisplayNone)
      else if selected_tab =? "duplicates" then
        Ok (duplicates_panel df, [], DisplayNone)
      else Ok (tab_not_found, [], DisplayNone)
  end.

(** [update_boxplot] (app2.py, lines 125-142): the box plot of the
    column with the outlier rows drawn over it. *)
Definition update_boxplot (column : option string) (contents : option Csv)
  : result (figure * display) :=
  match contents, column with
  | Some c, Some col =>
      df <- parse_contents c ;;
      report <- outlier_detection df col ;;
      Ok (BoxWithPoints df col (outliers report), DisplayBlock)
  | _, _ => Ok (EmptyFigure, DisplayNone)
  end.
End Callbacks.
End App2.

(* ================================================================== *)
(** * A concrete number grammar and the scenario of the specification *)
(* ================================================================== *)

(** Decimal integers with an optional sign: enough to read the files of
    the examples. *)
Definition digit_of (a : ascii) : option Z :=
  let n := nat_of_ascii a in
  if ((48 <=? n) && (n <=? 57))%nat then Some (Z.of_nat (n - 48)) else None.

Fixpoint digits (s : string) (acc : Z) : option Z :=
  match s with
  | EmptyString => Some acc
  | String a s' =>
      match digit_of a with
      | Some d => digits s' (10 * acc + d)%Z
      | None => None
      end
  end.

Definition parse_integer (s : string) : option Q :=
  match s with
  | EmptyString => None
  | String "-" (String a s') =>
      option_map (fun z => inject_Z (- z)) (digits (String a s') 0)
  | _ => option_map inject_Z (digits s 0)
  end.

#[local] Instance integer_grammar : NumberGrammar := parse_integer.

(** Columns A and B, rows (1,10), (2,20), (1,10), (100,5). *)
Definition scenario : Csv :=
  {| csv_header := ["A"; "B"];
     csv_body := [["1"; "10"]; ["2"; "20"]; ["1"; "10"]; ["100"; "5"]] |}.

(** The frame that [read_csv] builds for the scenario. *)
Definition scenario_frame : DataFrame :=
  {| header := [("A", Number); ("B", Number)];
     rows := [[Num 1; Num 10]; [Num 2; Num 20]; [Num 1; Num 10];
              [Num 100; Num 5]] |}.

(** A file with a header line and no data line. *)
Definition header_only : Csv :=
  {| csv_header := ["A"; "B"]; csv_body := [] |}.

(** A file whose only column is text. *)
Definition text_only : Csv :=
  {| csv_header := ["name"]; csv_body := [["ann"]; ["bob"]] |}.

(** Proves that the strings of a concrete list are pairwise distinct. *)
Ltac distinct_names := repeat constructor; simpl; intuition discriminate.

(* ================================================================== *)
(** * Notions of the specification *)
(* ================================================================== *)

(** The number of cells of the frame that are not missing. *)
Definition total_non_null (df : DataFrame) : nat :=
  list_sum (map count_notna (rows df)).

(** Every row has one cell per column. *)
Definition rectangular (df : DataFrame) : Prop :=
  Forall (fun r => length r = length (header df)) (rows df).

Definition b2n (b : bool) : nat := if b then 1 else 0.

(** The numeric and the non-numeric columns of a frame, as the callbacks
    compute them. *)
Definition num_cols (df : DataFrame) : list string :=
  columns (select_dtypes [Number] [] df).

Definition cat_cols (df : DataFrame) : list string :=
  columns (select_dtypes [] [Number] df).

(** The two lists partition the column names of the frame: together they
    are the column names, each of them keeps the order of the frame, no
    name is in both, and the two counts add up to the column count. *)
Definition partitions (df : DataFrame) (num cat : list string) : Prop :=
  Permutation (num ++ cat)%list (columns df)
  /\ num = map fst (filter (fun h => dtype_eqb (snd h) Number) (header df))
  /\ cat = map fst (filter (fun h => negb (dtype_eqb (snd h) Number))
                           (header df))
  /\ (NoDup (columns df) ->
      forall name, In name (columns df) ->
                   (In name num /\ ~ In name cat)
                   \/ (In name cat /\ ~ In name num))
  /\ length num + length cat = length (columns df).

(** The percentile in the words of the specification: in a sorted list of
    [n] values the [p]-th percentile sits at index [p * (n - 1)], between
    the entries at the floor and at the ceiling of that index. *)
Definition percentile_spec (sorted : list Q) (p : Q) : Q :=
  let h := (p * inject_Z (Zlen sorted - 1))%Q in
  let lo := Qfloor h in
  let hi := Qceiling h in
  let v_lo := nth (Z.to_nat lo) sorted 0%Q in
  let v_hi := nth (Z.to_nat hi) sorted 0%Q in
  (v_lo + (h - inject_Z lo) * (v_hi - v_lo))%Q.

(** Every field of column [j] that is not missing reads as a number. *)
Definition all_parse {grammar : NumberGrammar} (c : Csv) (j : nat) : Prop :=
  forall f, In f (fields_at j (csv_body c)) ->
            is_na_field f = false -> parses f = true.

(** Column [j] has a field that is not missing. *)
Definition has_value (c : Csv) (j : nat) : Prop :=
  exists f, In f (fields_at j (csv_body c)) /\ is_na_field f = false.

(** The sum of a list of numbers and their mean. *)
Definition qsum (l : list Q) : Q := fold_right Qplus 0%Q l.

Definition mean (l : list Q) : Q := (qsum l / inject_Z (Zlen l))%Q.

(** The rows in which both columns hold a number. *)
Definition complete_pairs (xs ys : list cell) : list (Q * Q) :=
  flat_map (fun p => match p with
                     | (Num x, Num y) => [(x, y)]
                     | _ => []
                     end)
           (combine xs ys).

(** The sum of the products of the deviations from the means. *)
Definition codeviation (us vs : list Q) : Q :=
  let mu := mean us in
  let mv := mean vs in
  qsum (map (fun p => (fst p - mu) * (snd p - mv))%Q (combine us vs)).

(** The Pearson correlation coefficient of two columns, over the rows in
    which both hold a number: the codeviation divided by the square root
    of the product of the two sums of squared deviations.  [None] stands
    for an undefined coefficient (no such row, or a column that does not
    vary). *)
Definition pearson (xs ys : list cell) : option R :=
  let ps := complete_pairs xs ys in
  let us := map fst ps in
  let vs := map snd ps in
  match ps with
  | [] => None
  | _ =>
      let ssx := codeviation us us in
      let ssy := codeviation vs vs in
      if Qeq_bool (ssx * ssy)%Q 0%Q then None
      else Some (Q2R (codeviation us vs) / sqrt (Q2R (ssx * ssy)%Q))%R
  end.

(** The sum of squared deviations of the numbers of a column: zero exactly
    when the column has no variance. *)
Definition spread (s : list cell) : Q :=
  codeviation (dropna s) (dropna s).

(** The pair with its components exchanged. *)
Definition swap (p : Q * Q) : Q * Q := (snd p, fst p).

(** The entry of a matrix at line [i], column [j]. *)
Definition entry (m : CorrMatrix) (i j : nat) : option R :=
  nth j (nth i (entries m) []) None.

(** A file whose first column is empty in every line. *)
Definition empty_column : Csv :=
  {| csv_header := ["A"; "B"]; csv_body := [[""; "1"]; [""; "2"]] |}.

(** A frame whose column A repeats one number and has a missing cell. *)
Definition constant_frame : DataFrame :=
  {| header := [("A", Number); ("B", Number)];
     rows := [[Num 7; Num 1]; [NA; Num 2]; [Num 7; Num 3]] |}.

(** A frame whose column A holds missing cells only. *)
Definition missing_frame : DataFrame :=
  {| header := [("A", Number); ("B", Number)];
     rows := [[NA; Num 1]; [NA; Num 2]] |}.

(** All the numbers of the list are equal. *)
Definition constant (l : list Q) : Prop :=
  forall x y, In x l -> In y l -> (x == y)%Q.
(* ================================================================== *)
(** * Lists *)
(* ================================================================== *)

Section ListFacts.
Variables A B : Type.

Lemma map_snd_combine (a : list A) (b : list B) :
  length a = length b -> map snd (combine a b) = b.
Proof.
  revert b; induction a as [|x a IH]; intros [|y b] H; simpl in *;
    try discriminate; [reflexivity|].
  f_equal; apply IH; lia.
Qed.

Lemma map_fst_combine (a : list A) (b : list B) :
  length a = length b -> map fst (combine a b) = a.
Proof.
  revert b; induction a as [|x a IH]; intros [|y b] H; simpl in *;
    try discriminate; [reflexivity|].
  f_equal; apply IH; lia.
Qed.

Lemma list_sum_map_add (f g : A -> nat) (l : list A) :
  list_sum (map (fun x => f x + g x) l)
  = list_sum (map f l) + list_sum (map g l).
Proof. induction l as [|x l IH]; simpl; lia. Qed.

Lemma list_sum_map_const (k : nat) (l : list A) :
  list_sum (map (fun _ => k) l) = length l * k.
Proof. induction l as [|x l IH]; simpl; lia. Qed.

Lemma nth_error_combine_seq (l : list A) (j : nat) (x : A) (s : nat) :
  nth_error l j = Some x ->
  nth_error (combine (seq s (length l)) l) j = Some (s + j, x).
Proof.
  revert j s; induction l as [|y l IH]; intros [|j] s H; simpl in *;
    try discriminate.
  - inversion H; subst. now rewrite Nat.add_0_r.
  - rewrite (IH j (S s) H). f_equal. f_equal. lia.
Qed.

Lemma nth_error_combine_both (a : list A) (b : list B) (j : nat) x y :
  nth_error a j = Some x -> nth_error b j = Some y ->
  nth_error (combine a b) j = Some (x, y).
Proof.
  revert a b; induction j as [|j IH]; intros [|x' a] [|y' b]; simpl;
    try discriminate.
  - now intros [= ->] [= ->].
  - apply IH.
Qed.
End ListFacts.

(** ** Counting missing cells *)

Lemma count_na_notna (s : list cell) :
  count_na s + count_notna s = length s.
Proof.
  unfold count_na, count_notna, notna.
  induction s as [|c s IH]; simpl; [reflexivity|].
  destruct (isna c); simpl; lia.
Qed.

Lemma column_at_length (j : nat) (rs : list row) :
  length (column_at j rs) = length rs.
Proof. unfold column_at. apply length_map. Qed.

Lemma count_notna_cons (c : cell) (s : list cell) :
  count_notna (c :: s) = b2n (notna c) + count_notna s.
Proof. unfold count_notna. simpl. now destruct (notna c). Qed.

(** The cells of one row, counted position by position. *)
Lemma count_notna_by_position (r : row) :
  list_sum (map (fun j => b2n (notna (nth j r NA))) (seq 0 (length r)))
  = count_notna r.
Proof.
  induction r as [|c r IH]; [reflexivity|].
  rewrite count_notna_cons. cbn [length seq map list_sum nth].
  rewrite <- seq_shift, map_map. cbn [nth].
  fold (list_sum (map (fun j => b2n (notna (nth j r NA)))
                      (seq 0 (length r)))).
  cbn [list_sum fold_right]. now rewrite <- IH.
Qed.

(** Counting by column and counting by row give the same total. *)
Lemma count_by_column_by_row (n : nat) (rs : list row) :
  Forall (fun r => length r = n) rs ->
  list_sum (map (fun j => count_notna (column_at j rs)) (seq 0 n))
  = list_sum (map count_notna rs).
Proof.
  induction 1 as [|r rs Hr _ IH]; simpl.
  - rewrite (map_ext _ (fun _ => 0)) by reflexivity.
    rewrite list_sum_map_const. lia.
  - rewrite <- IH, <- (count_notna_by_position r), Hr.
    rewrite <- list_sum_map_add. f_equal. apply map_ext. intros j.
    apply count_notna_cons.
Qed.

Lemma isnull_sum_names (df : DataFrame) :
  map fst (isnull_sum df) = columns df.
Proof.
  unfold isnull_sum. rewrite map_map. cbn [fst].
  apply map_snd_combine. apply length_seq.
Qed.

Lemma isnull_sum_nth (df : DataFrame) (j : nat) (name : string) :
  nth_error (columns df) j = Some name ->
  nth_error (isnull_sum df) j
  = Some (name, count_na (column_at j (rows df))).
Proof.
  intros H. unfold isnull_sum.
  rewrite nth_error_map, (nth_error_combine_seq _ _ 0 H). reflexivity.
Qed.

Lemma isnull_sum_counts (df : DataFrame) :
  map snd (isnull_sum df)
  = map (fun j => count_na (column_at j (rows df)))
        (seq 0 (length (columns df))).
Proof.
  unfold isnull_sum. rewrite map_map. cbn [snd fst].
  rewrite <- (map_map fst (fun j => count_na (column_at j (rows df)))).
  f_equal. apply map_fst_combine. apply length_seq.
Qed.

(** The invariant of the missing-value counts, for a rectangular frame. *)
Lemma isnull_sum_total (df : DataFrame) :
  rectangular df ->
  list_sum (map snd (isnull_sum df)) + total_non_null df
  = fst (shape df) * snd (shape df).
Proof.
  intros Hrect. unfold total_non_null, shape. cbn [fst snd].
  rewrite isnull_sum_counts.
  assert (Hn : length (columns df) = length (header df))
    by (unfold columns; apply length_map).
  rewrite <- (count_by_column_by_row (n := length (header df)) Hrect).
  rewrite Hn, <- list_sum_map_add.
  rewrite (map_ext _ (fun _ => length (rows df))).
  - rewrite list_sum_map_const, length_seq. lia.
  - intros j. rewrite count_na_notna. apply column_at_length.
Qed.

Lemma from_records_rectangular (d : list record) :
  rectangular (from_records d).
Proof.
  unfold rectangular, from_records. cbn [rows header].
  apply Forall_forall. intros r Hr. apply in_map_iff in Hr.
  destruct Hr as [x [<- _]].
  rewrite !length_map, length_combine, length_seq. lia.
Qed.

(** ** Boolean masks *)

Section Masks.
Variable A : Type.
Variable d : A.

(** The rows kept by a mask, read off by position. *)
Lemma mask_by_position (l : list A) (mask : list bool) :
  length mask = length l ->
  map fst (filter snd (combine l mask))
  = map (fun i => nth i l d)
        (filter (fun i => nth i mask false) (seq 0 (length l))).
Proof.
  revert mask; induction l as [|x l IH]; intros [|b mask] H;
    cbn [length] in H; try discriminate; [reflexivity|].
  specialize (IH mask ltac:(lia)).
  cbn [length seq combine filter snd nth].
  rewrite <- seq_shift, filter_map_swap.
  destruct b; cbn [map fst nth]; rewrite map_map; cbn [nth]; now rewrite IH.
Qed.

Lemma sum_bool_by_position (mask : list bool) :
  sum_bool mask
  = length (filter (fun i => nth i mask false) (seq 0 (length mask))).
Proof.
  unfold sum_bool. induction mask as [|b mask IH]; [reflexivity|].
  cbn [length seq filter nth].
  rewrite <- seq_shift, filter_map_swap.
  destruct b; cbn [length]; rewrite length_map; cbn [nth]; now rewrite IH.
Qed.
End Masks.

(** ** Equality of rows *)

Lemma cell_eqb_eq (a b : cell) : cell_eqb a b = true <-> cell_eq a b.
Proof.
  destruct a, b; simpl; try (split; [discriminate|tauto]).
  - apply Qeq_bool_iff.
  - apply String.eqb_eq.
  - tauto.
Qed.

Lemma row_eqb_eq (r s : row) : row_eqb r s = true <-> row_eq r s.
Proof.
  unfold row_eq. revert s; induction r as [|a r IH]; intros [|b s]; simpl.
  - split; auto.
  - split; [discriminate|inversion 1].
  - split; [discriminate|inversion 1].
  - rewrite andb_true_iff, cell_eqb_eq, IH. split.
    + intros [? ?]; now constructor.
    + inversion 1; now subst.
Qed.

Lemma cell_eq_sym (a b : cell) : cell_eq a b -> cell_eq b a.
Proof.
  destruct a, b; simpl; auto. intros H. now rewrite H.
Qed.

Lemma row_eq_sym (r s : row) : row_eq r s -> row_eq s r.
Proof.
  unfold row_eq. induction 1; constructor; auto using cell_eq_sym.
Qed.

(** ** Duplicated rows *)

Lemma duplicated_from_length (seen rs : list row) :
  length (duplicated_from seen rs) = length rs.
Proof.
  revert seen; induction rs as [|r rs IH]; intros seen; simpl;
    [reflexivity | now rewrite IH].
Qed.

(** A row is marked when it equals a row seen before the scan started or
    an earlier row of the scan. *)
Lemma duplicated_from_spec (rs : list row) :
  forall (seen : list row) (i : nat),
    i < length rs ->
    nth i (duplicated_from seen rs) false = true <->
    (exists s, In s seen /\ row_eq s (nth i rs []))
    \/ (exists j, j < i /\ row_eq (nth j rs []) (nth i rs [])).
Proof.
  induction rs as [|r rs IH]; intros seen i Hi; simpl in Hi; [lia|].
  destruct i as [|i]; cbn [duplicated_from nth].
  - rewrite existsb_exists. split.
    + intros [s [Hs He]]. left. exists s. split; [exact Hs|].
      apply row_eq_sym. now apply row_eqb_eq.
    + intros [[s [Hs He]] | [j [Hj _]]]; [|lia].
      exists s. split; [exact Hs|]. apply row_eqb_eq. now apply row_eq_sym.
  - rewrite (IH (r :: seen) i) by lia. split.
    + intros [[s [[<- | Hs] He]] | [j [Hj He]]].
      * right. exists 0. split; [lia | exact He].
      * left. now exists s.
      * right. exists (S j). split; [lia | exact He].
    + intros [[s [Hs He]] | [[|j] [Hj He]]].
      * left. exists s. split; [now right | exact He].
      * left. exists r. split; [now left | exact He].
      * right. exists j. split; [lia | exact He].
Qed.

Lemma duplicated_spec (df : DataFrame) (i : nat) :
  i < length (rows df) ->
  nth i (duplicated df) false = true <->
  exists j, j < i /\ row_eq (nth j (rows df) []) (nth i (rows df) []).
Proof.
  intros Hi. unfold duplicated. rewrite duplicated_from_spec by exact Hi.
  split.
  - intros [[s [[] _]] | H]; exact H.
  - intros H. now right.
Qed.

(** The callbacks show the duplicates panel of the frame. *)
Lemma app_duplicates_tab (d : list record) :
  App.render_tab "duplicates" (Some d)
  = Ok (duplicates_panel (from_records d)).
Proof. reflexivity. Qed.

Lemma app2_duplicates_tab {grammar : NumberGrammar} (c : Csv) (df : DataFrame) :
  App2.parse_contents c = Ok df ->
  App2.render_tab "duplicates" (Some c)
  = Ok (duplicates_panel df, [], DisplayNone).
Proof. intros H. unfold App2.render_tab. now rewrite H. Qed.

Lemma app1_duplicates_tab {grammar : NumberGrammar} (c : Csv) (df : DataFrame) :
  App1.parse_contents c = Ok df ->
  App1.render_tab "duplicates" (Some c)
  = Ok (duplicates_panel df, columns df).
Proof. intros H. unfold App1.render_tab. now rewrite H. Qed.

(** C3.  DuplicateReport: a row is flagged exactly when an earlier row is
    identical to it in every column (missing cells included); the count
    is the number of flagged rows; the listed rows are the flagged rows
    in their original order; a row without an earlier identical row (the
    first occurrence of a pattern) is never flagged.  The duplicates tab
    of the three dashboards shows this count and these rows. *)
Theorem duplicate_report (df : DataFrame) :
  let mask := duplicated df in
  let rs := rows df in
  let flagged := filter (fun i => nth i mask false) (seq 0 (length rs)) in
  length mask = length rs
  /\ (forall i, i < length rs ->
        nth i mask false = true <->
        exists j, j < i /\ row_eq (nth j rs []) (nth i rs []))
  /\ sum_bool mask = length flagged
  /\ rows (getitem_mask df mask) = map (fun i => nth i rs []) flagged
  /\ (forall i, i < length rs ->
        (forall j, j < i -> ~ row_eq (nth j rs []) (nth i rs [])) ->
        nth i mask false = false)
  /\ duplicates_panel df
     = DuplicatePanel (sum_bool mask)
         (if (0 <? sum_bool mask)%nat
          then Some (to_dict_records (getitem_mask df mask), columns df)
          else None)
  /\ (forall d, df = from_records d ->
        App.render_tab "duplicates" (Some d) = Ok (duplicates_panel df)).
Proof.
  intros mask rs flagged.
  assert (Hlen : length mask = length rs)
    by apply duplicated_from_length.
  repeat split.
  - exact Hlen.
  - now apply duplicated_spec.
  - now apply duplicated_spec.
  - unfold flagged. rewrite <- Hlen. apply sum_bool_by_position.
  - unfold getitem_mask. cbn [rows]. now apply mask_by_position.
  - intros i Hi Hfirst.
    destruct (nth i mask false) eqn:E; [|reflexivity].
    apply duplicated_spec in E; [|exact Hi].
    destruct E as [j [Hj He]]. now elim (Hfirst j Hj).
  - intros d ->. apply app_duplicates_tab.
Qed.


(* ================================================================== *)
(** * Frames read from a file *)
(* ================================================================== *)

Section ReadCsv.
Context {grammar : NumberGrammar}.
Variables (c : Csv) (df : DataFrame).
Hypothesis Hread : read_csv c = Ok df.

Lemma read_csv_frame :
  df = {| header := combine (csv_header c) (column_dtypes c);
          rows := map (convert_line (column_dtypes c)) (csv_body c) |}.
Proof.
  unfold read_csv in Hread. destruct (csv_header c) eqn:E; [discriminate|].
  destruct (existsb _ _); [discriminate|]. now inversion Hread.
Qed.

Lemma read_csv_has_header : csv_header c <> [].
Proof.
  unfold read_csv in Hread. now destruct (csv_header c).
Qed.

Lemma column_dtypes_length :
  length (column_dtypes c) = length (csv_header c).
Proof. unfold column_dtypes. now rewrite length_map, length_seq. Qed.

Lemma read_csv_columns : columns df = csv_header c.
Proof.
  rewrite read_csv_frame. unfold columns. cbn [header].
  apply map_fst_combine. now rewrite column_dtypes_length.
Qed.

Lemma read_csv_width : length (header df) = length (csv_header c).
Proof.
  rewrite <- read_csv_columns. unfold columns. now rewrite length_map.
Qed.

Lemma read_csv_length : length (rows df) = length (csv_body c).
Proof. rewrite read_csv_frame. cbn [rows]. apply length_map. Qed.

Lemma convert_line_length (dts : list dtype) (line : list string) :
  length (convert_line dts line) = length dts.
Proof.
  unfold convert_line. rewrite length_map, length_combine, length_seq. lia.
Qed.

Lemma read_csv_rectangular : rectangular df.
Proof.
  unfold rectangular. rewrite read_csv_width, read_csv_frame. cbn [rows].
  apply Forall_forall. intros r Hr. apply in_map_iff in Hr.
  destruct Hr as [line [<- _]].
  now rewrite convert_line_length, column_dtypes_length.
Qed.

Lemma column_dtypes_nth (j : nat) :
  j < length (csv_header c) ->
  nth_error (column_dtypes c) j
  = Some (infer_dtype (fields_at j (csv_body c))).
Proof.
  intros Hj. unfold column_dtypes.
  rewrite nth_error_map, nth_error_seq.
  apply Nat.ltb_lt in Hj. now rewrite Hj.
Qed.

(** The header of the frame, position by position. *)
Lemma read_csv_header_nth (j : nat) (name : string) :
  nth_error (csv_header c) j = Some name ->
  nth_error (header df) j
  = Some (name, infer_dtype (fields_at j (csv_body c))).
Proof.
  intros Hname.
  assert (Hj : j < length (csv_header c))
    by (apply nth_error_Some; congruence).
  rewrite read_csv_frame. cbn [header].
  apply nth_error_combine_both; [exact Hname|].
  now apply column_dtypes_nth.
Qed.

Lemma convert_line_nth (dts : list dtype) (line : list string) (j : nat)
      (d : dtype) :
  nth_error dts j = Some d ->
  nth j (convert_line dts line) NA = convert d (nth j line ""%string).
Proof.
  intros Hd. unfold convert_line.
  apply nth_error_nth. rewrite nth_error_map.
  now rewrite (nth_error_combine_seq _ _ 0 Hd).
Qed.

(** The cells of a column are the converted fields of the column. *)
Lemma read_csv_column (j : nat) :
  j < length (csv_header c) ->
  column_at j (rows df)
  = map (convert (infer_dtype (fields_at j (csv_body c))))
        (fields_at j (csv_body c)).
Proof.
  intros Hj. rewrite read_csv_frame. cbn [rows].
  unfold column_at, fields_at. rewrite !map_map.
  apply map_ext. intros line.
  apply convert_line_nth. now apply column_dtypes_nth.
Qed.
End ReadCsv.

(* ================================================================== *)
(** * Frames rebuilt from their records *)
(* ================================================================== *)

Lemma existsb_eqb_false (k : string) (acc : list string) :
  ~ In k acc -> existsb (String.eqb k) acc = false.
Proof.
  intros H. destruct (existsb (String.eqb k) acc) eqn:E; [|reflexivity].
  apply existsb_exists in E. destruct E as [x [Hx He]].
  apply String.eqb_eq in He. now subst.
Qed.

Lemma existsb_eqb_true (k : string) (acc : list string) :
  In k acc -> existsb (String.eqb k) acc = true.
Proof.
  intros H. apply existsb_exists. exists k. split; [exact H|].
  apply String.eqb_refl.
Qed.

Lemma add_keys_fresh (ks : list string) :
  forall acc, NoDup (acc ++ ks)%list -> add_keys acc ks = (acc ++ ks)%list.
Proof.
  induction ks as [|k ks IH]; intros acc H; simpl.
  - now rewrite app_nil_r.
  - rewrite existsb_eqb_false.
    + rewrite IH; rewrite <- app_assoc; [reflexivity | exact H].
    + apply NoDup_remove_2 in H. intros Hin. apply H.
      apply in_or_app. now left.
Qed.

Lemma add_keys_known (ks : list string) :
  forall acc, incl ks acc -> add_keys acc ks = acc.
Proof.
  induction ks as [|k ks IH]; intros acc H; simpl; [reflexivity|].
  rewrite existsb_eqb_true by (apply H; now left).
  apply IH. intros x Hx. apply H. now right.
Qed.

Lemma lookup_combine (cols : list string) :
  NoDup cols ->
  forall r : row,
    length r = length cols ->
    map (fun k => lookup k (combine cols r)) cols = r.
Proof.
  induction 1 as [|k cols' Hk Hnd IH]; intros [|v r] Hlen;
    simpl in Hlen; try discriminate; [reflexivity|].
  cbn [combine map lookup]. rewrite String.eqb_refl. f_equal.
  transitivity (map (fun k0 => lookup k0 (combine cols' r)) cols');
    [|apply IH; lia].
  apply map_ext_in. intros k' Hk'.
  destruct (String.eqb k' k) eqn:E; [|reflexivity].
  apply String.eqb_eq in E. now subst.
Qed.

Section Records.
Variable cols : list string.
Hypothesis Hnodup : NoDup cols.

Lemma record_keys_from (rs : list row) :
  Forall (fun r => length r = length cols) rs ->
  fold_left (fun acc r => add_keys acc (map fst r))
            (map (combine cols) rs) cols
  = cols.
Proof.
  induction 1 as [|r rs Hr _ IH]; [reflexivity|].
  cbn [map fold_left]. rewrite map_fst_combine by now symmetry.
  rewrite add_keys_known by apply incl_refl. exact IH.
Qed.

Lemma record_keys_rows (rs : list row) :
  Forall (fun r => length r = length cols) rs ->
  rs <> [] ->
  record_keys (map (combine cols) rs) = cols.
Proof.
  intros Hall Hne. destruct rs as [|r rs]; [congruence|].
  inversion Hall as [|? ? Hr Hrs]; subst.
  unfold record_keys. cbn [map fold_left].
  rewrite map_fst_combine by now symmetry.
  rewrite (add_keys_fresh cols []) by exact Hnodup.
  now apply record_keys_from.
Qed.
End Records.

(** With at least one row, the records give back the column names and
    the rows of the frame they were taken from. *)
Lemma from_records_to_dict (df : DataFrame) :
  rectangular df -> NoDup (columns df) -> rows df <> [] ->
  columns (from_records (to_dict_records df)) = columns df
  /\ rows (from_records (to_dict_records df)) = rows df.
Proof.
  intros Hrect Hnd Hne.
  assert (Hall : Forall (fun r => length r = length (columns df)) (rows df)).
  { unfold columns. rewrite length_map. exact Hrect. }
  change (to_dict_records df) with (map (combine (columns df)) (rows df)).
  unfold from_records. cbv zeta.
  rewrite (record_keys_rows Hnd Hall Hne).
  split.
  - unfold columns. cbn [header]. rewrite map_map. cbn [fst].
    apply map_snd_combine. apply length_seq.
  - cbn [rows]. rewrite map_map.
    transitivity (map (fun r : row => r) (rows df)); [|apply map_id].
    apply map_ext_in. intros r Hr.
    apply (lookup_combine Hnd). rewrite Forall_forall in Hall. now apply Hall.
Qed.

Lemma from_records_header (recs : list record) (j : nat) (name : string) :
  nth_error (columns (from_records recs)) j = Some name ->
  nth_error (header (from_records recs)) j
  = Some (name, infer_objects (column_at j (rows (from_records recs)))).
Proof.
  unfold columns, from_records. cbn [header rows].
  rewrite map_map. cbn [fst]. rewrite !nth_error_map.
  destruct (nth_error (combine _ _) j) as [[i k]|] eqn:E; [|discriminate].
  cbn [option_map snd fst]. intros [= ->]. do 2 f_equal.
  assert (Hj : nth_error (record_keys recs) j = Some name).
  { pose proof (f_equal (option_map snd) E) as H.
    rewrite <- nth_error_map, map_snd_combine in H by apply length_seq.
    exact H. }
  rewrite (nth_error_combine_seq _ _ 0 Hj) in E. now inversion E.
Qed.

Section StoredFrame.
Context {grammar : NumberGrammar}.
Variables (c : Csv) (df : DataFrame).
Hypothesis Hread : read_csv c = Ok df.

(** The dtype that [pd.DataFrame] infers for a column read from a file
    with at least one data line: the dtype of the reader when the column
    has a value, object when it has none. *)
Lemma infer_objects_column (j : nat) :
  j < length (csv_header c) ->
  csv_body c <> [] ->
  (has_value c j ->
   infer_objects (column_at j (rows df))
   = infer_dtype (fields_at j (csv_body c)))
  /\ (~ has_value c j ->
      infer_objects (column_at j (rows df)) = Object
      /\ infer_dtype (fields_at j (csv_body c)) = Number).
Proof.
  intros Hj Hne. rewrite (read_csv_column c Hread Hj).
  unfold has_value.
  assert (Hf : fields_at j (csv_body c) <> []).
  { unfold fields_at. destruct (csv_body c); [congruence | discriminate]. }
  generalize dependent (fields_at j (csv_body c)). intros fields Hf.
  unfold infer_dtype.
  destruct fields as [|f0 fields0] eqn:Ef; [congruence|]. rewrite <- Ef.
  clear Ef Hf f0 fields0.
  destruct (forallb _ fields) eqn:Eall.
  - (* a numeric column *)
    rewrite forallb_forall in Eall.
    assert (Hstr : existsb is_str (map (convert Number) fields) = false).
    { destruct (existsb _ _) eqn:E; [|reflexivity].
      apply existsb_exists in E. destruct E as [x [Hx Hs]].
      apply in_map_iff in Hx. destruct Hx as [f [<- Hin]].
      specialize (Eall f Hin). unfold convert, parses in *.
      destruct (is_na_field f); [discriminate|].
      destruct (parse_number f); discriminate. }
    unfold infer_objects. rewrite Hstr. split.
    + intros [f [Hin Hna]].
      assert (E : existsb is_num (map (convert Number) fields) = true).
      { apply existsb_exists. exists (convert Number f).
        split; [now apply in_map|].
        specialize (Eall f Hin). unfold convert, parses in *.
        rewrite Hna in *. simpl in Eall.
        now destruct (parse_number f). }
      now rewrite E.
    + intros Hnone. split; [|reflexivity].
      destruct (existsb is_num _) eqn:E; [|reflexivity].
      apply existsb_exists in E. destruct E as [x [Hx Hn]].
      apply in_map_iff in Hx. destruct Hx as [f [<- Hin]].
      exfalso. apply Hnone. exists f. split; [exact Hin|].
      unfold convert in Hn. now destruct (is_na_field f).
  - (* an object column holds a text *)
    assert (Hex : exists f, In f fields /\ is_na_field f = false
                            /\ parses f = false).
    { clear - Eall. induction fields as [|f fields IH]; [discriminate|].
      simpl in Eall. apply andb_false_iff in Eall.
      destruct Eall as [E|E].
      - apply orb_false_iff in E. destruct E as [E1 E2].
        exists f. repeat split; [now left | exact E1 | exact E2].
      - destruct (IH E) as [g [Hg1 Hg2]]. exists g.
        split; [now right | exact Hg2]. }
    destruct Hex as [f [Hin [Hna Hp]]].
    assert (E : existsb is_str (map (convert Object) fields) = true).
    { apply existsb_exists. exists (convert Object f).
      split; [now apply in_map|]. unfold convert. now rewrite Hna. }
    unfold infer_objects. rewrite E. split; [reflexivity|].
    intros Hnone. exfalso. apply Hnone. now exists f.
Qed.
End StoredFrame.

(* ================================================================== *)
(** * The column classifier *)
(* ================================================================== *)

Lemma selected_number (d : dtype) :
  selected [Number] [] d = dtype_eqb d Number.
Proof. now destruct d. Qed.

Lemma selected_not_number (d : dtype) :
  selected [] [Number] d = negb (dtype_eqb d Number).
Proof. now destruct d. Qed.

Lemma num_cols_filter (df : DataFrame) :
  num_cols df
  = map fst (filter (fun h => dtype_eqb (snd h) Number) (header df)).
Proof.
  unfold num_cols, columns, select_dtypes. cbn [header]. f_equal.
  apply filter_ext. intros h. apply selected_number.
Qed.

Lemma cat_cols_filter (df : DataFrame) :
  cat_cols df
  = map fst (filter (fun h => negb (dtype_eqb (snd h) Number)) (header df)).
Proof.
  unfold cat_cols, columns, select_dtypes. cbn [header]. f_equal.
  apply filter_ext. intros h. apply selected_not_number.
Qed.

Lemma in_num_cols (df : DataFrame) (name : string) :
  In name (num_cols df) <-> In (name, Number) (header df).
Proof.
  rewrite num_cols_filter, in_map_iff. split.
  - intros [[n d] [<- H]]. apply filter_In in H. destruct H as [H E].
    cbn [fst snd] in *. now destruct d.
  - intros H. exists (name, Number). split; [reflexivity|].
    apply filter_In. now split.
Qed.

Lemma in_cat_cols (df : DataFrame) (name : string) :
  In name (cat_cols df) <-> In (name, Object) (header df).
Proof.
  rewrite cat_cols_filter, in_map_iff. split.
  - intros [[n d] [<- H]]. apply filter_In in H. destruct H as [H E].
    cbn [fst snd] in *. now destruct d.
  - intros H. exists (name, Object). split; [reflexivity|].
    apply filter_In. now split.
Qed.

Section Split.
Variable A : Type.
Variable f : A -> bool.

Lemma filter_split_perm (l : list A) :
  Permutation (filter f l ++ filter (fun x => negb (f x)) l) l.
Proof.
  induction l as [|x l IH]; simpl; [constructor|].
  destruct (f x); simpl.
  - now constructor.
  - apply Permutation_sym, Permutation_cons_app. now apply Permutation_sym.
Qed.

Lemma filter_split_length (l : list A) :
  length (filter f l) + length (filter (fun x => negb (f x)) l) = length l.
Proof.
  rewrite <- length_app. apply Permutation_length, filter_split_perm.
Qed.
End Split.

Lemma unique_dtype (l : list (string * dtype)) (name : string) (a b : dtype) :
  NoDup (map fst l) -> In (name, a) l -> In (name, b) l -> a = b.
Proof.
  induction l as [|[n d] l IH]; simpl; [tauto|].
  intros Hnd [Ha|Ha] [Hb|Hb]; inversion Hnd as [|? ? Hn Hl]; subst.
  - congruence.
  - inversion Ha; subst. elim Hn. apply in_map_iff. now exists (name, b).
  - inversion Hb; subst. elim Hn. apply in_map_iff. now exists (name, a).
  - now apply IH.
Qed.

(** The two lists that the callbacks compute partition the columns. *)
Lemma classify_partitions (df : DataFrame) :
  partitions df (num_cols df) (cat_cols df).
Proof.
  unfold partitions. repeat split.
  - rewrite num_cols_filter, cat_cols_filter, <- map_app.
    unfold columns. apply Permutation_map, filter_split_perm.
  - apply num_cols_filter.
  - apply cat_cols_filter.
  - intros Hnd name Hin. unfold columns in Hin. apply in_map_iff in Hin.
    destruct Hin as [[n d] [<- Hin]]. cbn [fst].
    destruct d; [left | right]; split;
      try (now apply in_num_cols); try (now apply in_cat_cols);
      rewrite ?in_num_cols, ?in_cat_cols; intros H;
      pose proof (@unique_dtype _ _ _ _ Hnd Hin H); discriminate.
  - rewrite num_cols_filter, cat_cols_filter, !length_map.
    unfold columns. rewrite length_map. apply filter_split_length.
Qed.

Section Rule.
Context {grammar : NumberGrammar}.
Variables (c : Csv) (df : DataFrame).
Hypothesis Hread : read_csv c = Ok df.
Hypothesis Hnodup : NoDup (csv_header c).

Lemma infer_dtype_number (j : nat) :
  infer_dtype (fields_at j (csv_body c)) = Number
  <-> csv_body c <> [] /\ all_parse c j.
Proof.
  unfold all_parse, infer_dtype, fields_at.
  destruct (csv_body c) as [|line body]; cbn [map].
  - split; [discriminate | intros [H _]; congruence].
  - set (fields := nth j line ""%string :: _).
    destruct (forallb _ fields) eqn:E.
    + split; [|reflexivity]. intros _. split; [discriminate|].
      rewrite forallb_forall in E. intros f Hin Hna.
      specialize (E f Hin). rewrite Hna in E. exact E.
    + split; [discriminate|]. intros [_ H]. exfalso.
      assert (E' : forallb (fun f => is_na_field f || parses f) fields
                   = true); [|congruence].
      apply forallb_forall. intros f Hin. specialize (H f Hin).
      destruct (is_na_field f); [reflexivity|]. now apply H.
Qed.

Lemma header_nodup : NoDup (map fst (header df)).
Proof.
  change (NoDup (columns df)). now rewrite (read_csv_columns c Hread).
Qed.

(** A column of a file is numeric exactly when the file has a data line
    and every field of the column that is not missing reads as a
    number. *)
Lemma read_csv_numeric (j : nat) (name : string) :
  nth_error (csv_header c) j = Some name ->
  In name (num_cols df) <-> csv_body c <> [] /\ all_parse c j.
Proof.
  intros Hname. rewrite in_num_cols, <- infer_dtype_number.
  pose proof (read_csv_header_nth c Hread j Hname) as Hh.
  apply nth_error_In in Hh. split.
  - intros Hin. symmetry. exact (@unique_dtype _ _ _ _ header_nodup Hin Hh).
  - intros E. now rewrite E in Hh.
Qed.

Lemma has_value_dec (j : nat) : has_value c j \/ ~ has_value c j.
Proof.
  unfold has_value.
  destruct (existsb (fun f => negb (is_na_field f))
                    (fields_at j (csv_body c))) eqn:E.
  - left. apply existsb_exists in E. destruct E as [f [Hin Hf]].
    exists f. split; [exact Hin|]. now destruct (is_na_field f).
  - right. intros [f [Hin Hf]].
    assert (E' : existsb (fun f => negb (is_na_field f))
                         (fields_at j (csv_body c)) = true);
      [|congruence].
    apply existsb_exists. exists f. now rewrite Hf.
Qed.

Hypothesis Hrows : csv_body c <> [].

Lemma rows_nonempty : rows df <> [].
Proof.
  intros E. apply Hrows. apply length_zero_iff_nil.
  now rewrite <- (read_csv_length c Hread), E.
Qed.

Lemma stored_columns :
  columns (from_records (to_dict_records df)) = columns df.
Proof.
  apply from_records_to_dict.
  - exact (read_csv_rectangular c Hread).
  - now rewrite (read_csv_columns c Hread).
  - exact rows_nonempty.
Qed.

Lemma stored_rows :
  rows (from_records (to_dict_records df)) = rows df.
Proof.
  apply from_records_to_dict.
  - exact (read_csv_rectangular c Hread).
  - now rewrite (read_csv_columns c Hread).
  - exact rows_nonempty.
Qed.

(** The header of the frame rebuilt from the records. *)
Lemma stored_header_nth (j : nat) (name : string) :
  nth_error (csv_header c) j = Some name ->
  nth_error (header (from_records (to_dict_records df))) j
  = Some (name, infer_objects (column_at j (rows df))).
Proof.
  intros Hname. rewrite <- stored_rows. apply from_records_header.
  now rewrite stored_columns, (read_csv_columns c Hread).
Qed.

(** In app.py a column is numeric exactly when every field that is not
    missing reads as a number and the column has such a field. *)
Lemma stored_numeric (j : nat) (name : string) :
  nth_error (csv_header c) j = Some name ->
  In name (num_cols (from_records (to_dict_records df)))
  <-> all_parse c j /\ has_value c j.
Proof.
  intros Hname.
  assert (Hj : j < length (csv_header c))
    by (apply nth_error_Some; congruence).
  pose proof (stored_header_nth j Hname) as Hh.
  pose proof (infer_objects_column c Hread Hj Hrows) as [Hv Hnv].
  pose proof (infer_dtype_number j) as Hnum.
  assert (Hnd : NoDup (map fst (header (from_records (to_dict_records df))))).
  { change (NoDup (columns (from_records (to_dict_records df)))).
    now rewrite stored_columns, (read_csv_columns c Hread). }
  rewrite in_num_cols. split.
  - intros Hin.
    pose proof (@unique_dtype _ _ _ _ Hnd Hin (nth_error_In _ _ Hh)) as E.
    destruct (has_value_dec j) as [Hyes|Hno].
    + split; [|exact Hyes]. apply Hnum. now rewrite <- (Hv Hyes).
    + destruct (Hnv Hno) as [E' _]. congruence.
  - intros [Hall Hyes].
    assert (E : infer_objects (column_at j (rows df)) = Number).
    { rewrite (Hv Hyes). apply Hnum. now split. }
    rewrite E in Hh. exact (nth_error_In _ _ Hh).
Qed.

(** When every column has a value the rebuilt frame is the frame. *)
Lemma stored_frame_equal :
  (forall j, j < length (csv_header c) -> has_value c j) ->
  from_records (to_dict_records df) = df.
Proof.
  intros Hall.
  pose proof stored_rows as Hr. pose proof stored_columns as Hc.
  assert (Hh : header (from_records (to_dict_records df)) = header df).
  { apply nth_error_ext. intros j.
    destruct (nth_error (csv_header c) j) as [name|] eqn:Hname.
    - rewrite (stored_header_nth j Hname).
      rewrite (read_csv_header_nth c Hread j Hname).
      assert (Hj : j < length (csv_header c))
        by (apply nth_error_Some; congruence).
      pose proof (infer_objects_column c Hread Hj Hrows) as [Hv _].
      now rewrite (Hv (Hall j Hj)).
    - apply nth_error_None in Hname.
      assert (H1 : nth_error (header df) j = None).
      { apply nth_error_None. now rewrite (read_csv_width c Hread). }
      assert (H2 : nth_error (header (from_records (to_dict_records df))) j
                   = None).
      { apply nth_error_None.
        replace (length (header (from_records (to_dict_records df))))
          with (length (columns (from_records (to_dict_records df))))
          by (unfold columns; apply length_map).
        now rewrite Hc, (read_csv_columns c Hread). }
      congruence. }
  destruct (from_records (to_dict_records df)) as [h r].
  destruct df as [h' r']. cbn [rows header] in *. congruence.
Qed.
End Rule.

(** A frame without columns has no numeric and no other column. *)
Lemma classify_no_columns (df : DataFrame) :
  columns df = [] -> num_cols df = [] /\ cat_cols df = [].
Proof.
  intros H. rewrite num_cols_filter, cat_cols_filter.
  unfold columns in H. apply map_eq_nil in H. now rewrite H.
Qed.

(** A file without data lines has no numeric column. *)
Lemma read_csv_no_rows {grammar : NumberGrammar} (c : Csv) (df : DataFrame) :
  read_csv c = Ok df -> csv_body c = [] ->
  num_cols df = [] /\ cat_cols df = columns df.
Proof.
  intros Hread Hbody.
  assert (Hobj : forall h, In h (header df) -> snd h = Object).
  { intros h Hin. apply In_nth_error in Hin. destruct Hin as [j Hj].
    destruct (nth_error (csv_header c) j) as [name|] eqn:Hname.
    - rewrite (read_csv_header_nth c Hread j Hname) in Hj.
      inversion Hj. unfold fields_at. now rewrite Hbody.
    - apply nth_error_None in Hname.
      rewrite <- (read_csv_width c Hread) in Hname.
      apply nth_error_None in Hname. congruence. }
  rewrite num_cols_filter, cat_cols_filter. unfold columns.
  induction (header df) as [|h l IH]; [now split|].
  simpl. rewrite (Hobj h (or_introl eq_refl)). simpl.
  destruct IH as [IH1 IH2]; [intros x Hx; apply Hobj; now right|].
  split; [exact IH1 | now rewrite IH2].
Qed.




(* ================================================================== *)
(** * The stored records of app.py and the parsed frame of app1, app2 *)
(* ================================================================== *)

Lemma process_file_records {grammar : NumberGrammar} (c : Csv) (df : DataFrame) :
  read_csv c = Ok df ->
  App.process_file (Some c) = Ok (Some (to_dict_records df)).
Proof. intros H. unfold App.process_file. now rewrite H. Qed.

Lemma isnull_sum_ext (df df' : DataFrame) :
  columns df = columns df' -> rows df = rows df' ->
  isnull_sum df = isnull_sum df'.
Proof. intros Hc Hr. unfold isnull_sum. now rewrite Hc, Hr. Qed.

Lemma duplicates_panel_ext (df df' : DataFrame) :
  columns df = columns df' -> rows df = rows df' ->
  duplicates_panel df = duplicates_panel df'.
Proof.
  intros Hc Hr.
  unfold duplicates_panel, duplicated, getitem_mask, to_dict_records.
  cbn [rows header]. unfold columns in *. cbn [header]. now rewrite Hc, Hr.
Qed.




(** A column without any value is numeric for app1 and app2 and is not
    for app.py. *)
Example stored_frame_empty_column :
  exists df data,
    App1.parse_contents empty_column = Ok df
    /\ App.process_file (Some empty_column) = Ok (Some data)
    /\ num_cols df = ["A"; "B"]
    /\ num_cols (from_records data) = ["B"].
Proof. do 2 eexists. repeat split. Qed.

(* ================================================================== *)
(** * Frames without a numeric column *)
(* ================================================================== *)

(** app.py answers the correlation tab with a warning when the frame has
    no numeric column. *)
Lemma app_correlation_guard (d : list record) :
  num_cols (from_records d) = [] ->
  App.render_tab "correlation" (Some d)
  = Ok (Alert "warning" "No numerical columns available for correlation.").
Proof.
  intros H. unfold App.render_tab. cbn [String.eqb Ascii.eqb Bool.eqb].
  fold (num_cols (from_records d)). now rewrite H.
Qed.

(** app1 and app2 have no such test: they chart the empty matrix. *)
Lemma app1_correlation_unguarded {grammar : NumberGrammar}
      (c : Csv) (df : DataFrame) :
  App1.parse_contents c = Ok df ->
  num_cols df = [] ->
  App1.render_tab "correlation" (Some c)
  = Ok (Graph (Imshow {| labels := []; entries := [] |}), columns df).
Proof.
  intros Hread H. unfold App1.render_tab. rewrite Hread.
  cbn [bind String.eqb Ascii.eqb Bool.eqb].
  fold (num_cols df). rewrite H. reflexivity.
Qed.

Lemma app2_correlation_unguarded {grammar : NumberGrammar}
      (c : Csv) (df : DataFrame) :
  App2.parse_contents c = Ok df ->
  num_cols df = [] ->
  App2.render_tab "correlation" (Some c)
  = Ok (Graph (Imshow {| labels := []; entries := [] |}), [], DisplayNone).
Proof.
  intros Hread H. unfold App2.render_tab. rewrite Hread.
  cbn [bind String.eqb Ascii.eqb Bool.eqb].
  fold (num_cols df). rewrite H. reflexivity.
Qed.

(** C4 (defect of app1.py and app2.py).  On an upload whose only column
    is text, the correlation tab of app1 returns the chart of an empty
    matrix, where app.py returns its warning. *)
Theorem correlation_without_numeric_columns :
  (exists df, App1.parse_contents text_only = Ok df /\ num_cols df = [])
  /\ App1.render_tab "correlation" (Some text_only)
     = Ok (Graph (Imshow {| labels := []; entries := [] |}), ["name"])
  /\ App2.render_tab "correlation" (Some text_only)
     = Ok (Graph (Imshow {| labels := []; entries := [] |}), [], DisplayNone)
  /\ (exists data,
        App.process_file (Some text_only) = Ok (Some data)
        /\ App.render_tab "correlation" (Some data)
           = Ok (Alert "warning"
                   "No numerical columns available for correlation.")).
Proof.
  split; [eexists; split; reflexivity|].
  split; [reflexivity|]. split; [reflexivity|].
  eexists. split; reflexivity.
Qed.

(** The box plot tab of app.py takes the first numeric column, and raises
    when there is none. *)
Lemma app_boxplots_first_column (d : list record) :
  num_cols (from_records d) = [] ->
  App.render_tab "boxplots" (Some d) = Raise IndexError.
Proof.
  intros H. unfold App.render_tab. cbn [String.eqb Ascii.eqb Bool.eqb].
  fold (num_cols (from_records d)). now rewrite H.
Qed.

(** An upload without data lines is stored as the empty list of records,
    whose frame has no column at all. *)
Lemma process_file_no_rows {grammar : NumberGrammar} (c : Csv) (df : DataFrame) :
  read_csv c = Ok df -> csv_body c = [] ->
  App.process_file (Some c) = Ok (Some []).
Proof.
  intros Hread Hbody. rewrite (process_file_records c Hread).
  unfold to_dict_records.
  assert (E : rows df = []).
  { apply length_zero_iff_nil.
    now rewrite (read_csv_length c Hread), Hbody. }
  now rewrite E.
Qed.

(** C9 (defect of app.py).  On an upload with a header line and no data
    line, the box plot tab of app.py raises IndexError; the other four
    tabs return their views. *)
Theorem empty_dataset_boxplots_tab :
  exists data,
    App.process_file (Some header_only) = Ok (Some data)
    /\ fst (shape (from_records data)) = 0
    /\ App.render_tab "boxplots" (Some data) = Raise IndexError
    /\ App.render_tab "overview" (Some data)
       = Ok (OverviewPanel
               {| preview := []; table_columns := [];
                  total_rows := 0; total_columns := 0;
                  numerical_columns := Some 0;
                  categorical_columns := Some 0 |})
    /\ App.render_tab "correlation" (Some data)
       = Ok (Alert "warning" "No numerical columns available for correlation.")
    /\ App.render_tab "missing" (Some data) = Ok (Graph (Bar []))
    /\ App.render_tab "duplicates" (Some data) = Ok (DuplicatePanel 0 None).
Proof.
  eexists. split; [reflexivity|]. repeat split.
Qed.

(** The same holds for every upload without data lines. *)
Lemma empty_dataset_boxplots_general {grammar : NumberGrammar}
      (c : Csv) (df : DataFrame) :
  read_csv c = Ok df -> csv_body c = [] ->
  (data <- App.process_file (Some c) ;; App.render_tab "boxplots" data)
  = Raise IndexError.
Proof.
  intros Hread Hbody. now rewrite (process_file_no_rows c Hread Hbody).
Qed.

(* ================================================================== *)
(** * Quantiles *)
(* ================================================================== *)

Section Sorting.
Local Open Scope Q_scope.

Lemma insert_perm (x : Q) (l : list Q) : Permutation (insert x l) (x :: l).
Proof.
  induction l as [|y l IH]; simpl; [reflexivity|].
  destruct (Qle_bool x y); [reflexivity|].
  rewrite IH. apply perm_swap.
Qed.

Lemma sort_perm (l : list Q) : Permutation (sort l) l.
Proof.
  induction l as [|x l IH]; simpl; [reflexivity|].
  rewrite insert_perm. now constructor.
Qed.

Lemma insert_hd (x y : Q) (l : list Q) :
  y <= x -> HdRel Qle y l -> HdRel Qle y (insert x l).
Proof.
  intros Hyx Hl. destruct l as [|z l]; simpl.
  - now constructor.
  - destruct (Qle_bool x z); constructor; [exact Hyx|].
    now inversion Hl.
Qed.

Lemma insert_sorted (x : Q) (l : list Q) :
  Sorted Qle l -> Sorted Qle (insert x l).
Proof.
  induction 1 as [|y l Hs IH Hhd]; simpl.
  - repeat constructor.
  - destruct (Qle_bool x y) eqn:E.
    + constructor; [now constructor|]. constructor.
      now apply Qle_bool_iff.
    + constructor; [exact IH|]. apply insert_hd; [|exact Hhd].
      apply Qlt_le_weak, Qnot_le_lt. intros H.
      apply Qle_bool_iff in H. congruence.
Qed.

Lemma sort_sorted (l : list Q) : Sorted Qle (sort l).
Proof.
  induction l as [|x l IH]; simpl; [constructor | now apply insert_sorted].
Qed.

Lemma in_dropna (s : list cell) (q : Q) : In q (dropna s) <-> In (Num q) s.
Proof.
  unfold dropna. rewrite in_flat_map. split.
  - intros [c [Hc Hq]]. destruct c; simpl in Hq; try tauto.
    destruct Hq as [<- | []]. exact Hc.
  - intros H. exists (Num q). split; [exact H | now left].
Qed.

(** numpy's two ways of interpolating are one function. *)
Lemma lerp_linear (a b t : Q) : lerp a b t == a + (b - a) * t.
Proof. unfold lerp. destruct (Qle_bool (1 # 2) t); ring. Qed.

Lemma floor_of_integer (x : Q) (z : Z) : x == inject_Z z -> Qfloor x = z.
Proof. intros H. rewrite H. apply Qfloor_Z. Qed.

Lemma ceiling_of_integer (x : Q) (z : Z) :
  x == inject_Z z -> Qceiling x = z.
Proof. intros H. rewrite H. apply Qceiling_Z. Qed.

(** Off the integers the ceiling is the position after the floor. *)
Lemma ceiling_after_floor (x : Q) :
  ~ x == inject_Z (Qfloor x) -> Qceiling x = (Qfloor x + 1)%Z.
Proof.
  intros Hx.
  pose proof (Qfloor_le x) as H1. pose proof (Qlt_floor x) as H2.
  pose proof (Qle_ceiling x) as H3. pose proof (Qceiling_lt x) as H4.
  assert (Hlt : inject_Z (Qfloor x) < x).
  { apply Qle_lteq in H1. destruct H1 as [H1|H1]; [exact H1|].
    elim Hx. now symmetry. }
  assert (Ha : (Qfloor x < Qceiling x)%Z).
  { rewrite Zlt_Qlt. eapply Qlt_le_trans; eassumption. }
  assert (Hb : (Qceiling x - 1 < Qfloor x + 1)%Z).
  { rewrite Zlt_Qlt. eapply Qlt_trans; eassumption. }
  lia.
Qed.

Variable arr : list Q.
Variable q : Q.
Hypothesis Harr : arr <> [].
Hypothesis Hq0 : 0 <= q.
Hypothesis Hq1 : q <= 1.

Lemma Zlen_pos : (1 <= Zlen arr)%Z.
Proof.
  unfold Zlen. destruct arr; [congruence|]. simpl length. lia.
Qed.

Lemma virtual_index_bounds :
  0 <= q * inject_Z (Zlen arr - 1)
  /\ q * inject_Z (Zlen arr - 1) <= inject_Z (Zlen arr - 1).
Proof.
  pose proof Zlen_pos as Hn.
  assert (Hm : 0 <= inject_Z (Zlen arr - 1)).
  { change 0 with (inject_Z 0). rewrite <- Zle_Qle. lia. }
  split.
  - now apply Qmult_le_0_compat.
  - rewrite <- (Qmult_1_l (inject_Z (Zlen arr - 1))) at 2.
    now apply Qmult_le_compat_r.
Qed.

Lemma item_last : item arr (-1) = nth (Z.to_nat (Zlen arr - 1)) arr 0.
Proof.
  unfold item. cbn [Z.ltb Z.compare]. f_equal.
Qed.

Lemma item_position (i : Z) :
  (0 <= i)%Z -> item arr i = nth (Z.to_nat i) arr 0.
Proof.
  intros Hi. unfold item. apply Z.ltb_ge in Hi. now rewrite Hi.
Qed.

(** The linear method of numpy is the percentile of the
    specification. *)
Lemma linear_quantile_spec : linear_quantile arr q == percentile_spec arr q.
Proof.
  destruct virtual_index_bounds as [Hh0 Hh1].
  unfold linear_quantile, percentile_spec.
  set (n := Zlen arr) in *. set (h := q * inject_Z (n - 1)) in *.
  rewrite lerp_linear.
  assert (Hbelow : Qle_bool 0 h = true) by now apply Qle_bool_iff.
  rewrite Hbelow. cbn [negb].
  assert (Hfloor : (0 <= Qfloor h)%Z).
  { change 0%Z with (Qfloor 0). now apply Qfloor_resp_le. }
  destruct (Qle_bool (inject_Z (n - 1)) h) eqn:Eabove.
  - (* the index is the last position: the last value, twice *)
    apply Qle_bool_iff in Eabove.
    assert (Eh : h == inject_Z (n - 1)) by now apply Qle_antisym.
    rewrite (floor_of_integer Eh), (ceiling_of_integer Eh).
    rewrite item_last. fold n. ring.
  - rewrite !item_position by lia.
    destruct (Qeq_dec h (inject_Z (Qfloor h))) as [Eint|Efrac].
    + (* the index is an integer *)
      rewrite (ceiling_of_integer Eint).
      setoid_replace (h - inject_Z (Qfloor h)) with 0
        by (rewrite <- Eint; ring).
      ring.
    + rewrite (ceiling_after_floor Efrac). ring.
Qed.
End Sorting.

(* ================================================================== *)
(** * Outlier detection *)
(* ================================================================== *)

Lemma fltb_flt (a b : float) : fltb a b = true <-> flt a b.
Proof.
  destruct a as [|x], b as [|y]; simpl; try (split; [discriminate|tauto]).
  rewrite negb_true_iff. split.
  - intros E. apply Qnot_le_lt. intros H. apply Qle_bool_iff in H. congruence.
  - intros H. destruct (Qle_bool y x) eqn:E; [|reflexivity].
    apply Qle_bool_iff in E. now apply Qlt_not_le in H.
Qed.

Lemma index_of_In (name : string) (names : list string) :
  In name names ->
  exists j, index_of name names = Some j /\ nth_error names j = Some name.
Proof.
  induction names as [|n names IH]; simpl; [tauto|].
  intros H. destruct (String.eqb name n) eqn:E.
  - apply String.eqb_eq in E. subst. now exists 0.
  - destruct H as [H|H]; [subst; now rewrite String.eqb_refl in E|].
    destruct (IH H) as [j [Hj1 Hj2]]. exists (S j). now rewrite Hj1.
Qed.

Lemma index_of_not_In (name : string) (names : list string) :
  ~ In name names -> index_of name names = None.
Proof.
  induction names as [|n names IH]; simpl; [reflexivity|].
  intros H. destruct (String.eqb name n) eqn:E.
  - apply String.eqb_eq in E. subst. elim H. now left.
  - rewrite IH; [reflexivity|]. intros Hin. apply H. now right.
Qed.

Lemma series_lt_numeric (s : list cell) (bound : float) :
  existsb is_str s = false ->
  series_lt s bound = Ok (map (fun c => fltb (to_float c) bound) s).
Proof.
  induction s as [|c s IH]; simpl; [reflexivity|].
  intros H. apply orb_false_iff in H. destruct H as [Hc Hs].
  rewrite (IH Hs). now destruct c.
Qed.

Lemma series_gt_numeric (s : list cell) (bound : float) :
  existsb is_str s = false ->
  series_gt s bound = Ok (map (fun c => fgtb (to_float c) bound) s).
Proof.
  induction s as [|c s IH]; simpl; [reflexivity|].
  intros H. apply orb_false_iff in H. destruct H as [Hc Hs].
  rewrite (IH Hs). now destruct c.
Qed.

Lemma series_or_map (A : Type) (f g : A -> bool) (l : list A) :
  series_or (map f l) (map g l) = map (fun x => f x || g x) l.
Proof.
  unfold series_or. induction l as [|x l IH]; simpl; [reflexivity|].
  now rewrite IH.
Qed.

Lemma mask_of_predicate (A : Type) (p : A -> bool) (l : list A) :
  map fst (filter snd (combine l (map p l))) = filter p l.
Proof.
  induction l as [|x l IH]; simpl; [reflexivity|].
  destruct (p x); simpl; now rewrite IH.
Qed.

(** The cell of a row that decides whether the row is an outlier. *)
Lemma outlier_rows (df : DataFrame) (j : nat) (lower upper : float) (r : row) :
  In r (rows (getitem_mask df
                (series_or
                   (map (fun c => fltb (to_float c) lower)
                        (column_at j (rows df)))
                   (map (fun c => fgtb (to_float c) upper)
                        (column_at j (rows df))))))
  <-> In r (rows df)
      /\ (flt (to_float (nth j r NA)) lower
          \/ flt upper (to_float (nth j r NA))).
Proof.
  unfold getitem_mask. cbn [rows]. rewrite series_or_map.
  unfold column_at. rewrite map_map, mask_of_predicate, filter_In.
  rewrite orb_true_iff. unfold fgtb. now rewrite !fltb_flt.
Qed.

Section NumericColumn.
Context {grammar : NumberGrammar}.
Variables (c : Csv) (df : DataFrame).
Hypothesis Hread : read_csv c = Ok df.

(** A numeric column holds no text. *)
Lemma numeric_column_no_text (j : nat) :
  j < length (csv_header c) ->
  infer_dtype (fields_at j (csv_body c)) = Number ->
  existsb is_str (column_at j (rows df)) = false.
Proof.
  intros Hj Hnum. rewrite (read_csv_column c Hread Hj), Hnum.
  unfold infer_dtype in Hnum.
  destruct (fields_at j (csv_body c)) as [|f0 fs] eqn:Ef; [reflexivity|].
  rewrite <- Ef in *. clear Ef.
  destruct (forallb _ _) eqn:Eall; [|discriminate].
  rewrite forallb_forall in Eall.
  destruct (existsb _ _) eqn:E; [|reflexivity].
  apply existsb_exists in E. destruct E as [x [Hx Hs]].
  apply in_map_iff in Hx. destruct Hx as [f [<- Hin]].
  specialize (Eall f Hin). unfold convert, parses in *.
  destruct (is_na_field f); [discriminate|].
  destruct (parse_number f); discriminate.
Qed.

(** An object column of a file with data lines holds a text. *)
Lemma object_column_has_text (j : nat) :
  j < length (csv_header c) ->
  csv_body c <> [] ->
  infer_dtype (fields_at j (csv_body c)) = Object ->
  existsb is_str (column_at j (rows df)) = true.
Proof.
  intros Hj Hne Hobj. rewrite (read_csv_column c Hread Hj), Hobj.
  assert (Hf : fields_at j (csv_body c) <> []).
  { unfold fields_at. destruct (csv_body c); [congruence | discriminate]. }
  unfold infer_dtype in Hobj.
  destruct (fields_at j (csv_body c)) as [|f0 fs] eqn:Ef; [congruence|].
  rewrite <- Ef in *. clear Ef Hf.
  destruct (forallb _ _) eqn:Eall; [discriminate|].
  clear Hobj. induction (fields_at j (csv_body c)) as [|f fields IH];
    [discriminate|].
  simpl in Eall. apply andb_false_iff in Eall. cbn [map existsb].
  destruct Eall as [E|E].
  - apply orb_false_iff in E. destruct E as [E1 E2].
    unfold convert. now rewrite E1.
  - rewrite (IH E). apply orb_true_r.
Qed.

Hypothesis Hnodup : NoDup (csv_header c).

(** The position and the dtype of a column of the frame. *)
Lemma column_position (column : string) :
  In column (columns df) ->
  exists j,
    index_of column (columns df) = Some j
    /\ j < length (csv_header c)
    /\ (In column (num_cols df)
        <-> infer_dtype (fields_at j (csv_body c)) = Number).
Proof.
  intros Hin. destruct (index_of_In _ _ Hin) as [j [Hj Hnth]].
  exists j. split; [exact Hj|].
  rewrite (read_csv_columns c Hread) in Hnth.
  split; [apply nth_error_Some; congruence|].
  rewrite (read_csv_numeric c Hread Hnodup j Hnth).
  symmetry. apply infer_dtype_number.
Qed.
End NumericColumn.

Lemma num_cols_columns (df : DataFrame) (name : string) :
  In name (num_cols df) -> In name (columns df).
Proof.
  rewrite in_num_cols. intros H. unfold columns.
  apply in_map_iff. now exists (name, Number).
Qed.

Lemma dtype_cases (d : dtype) : d = Number \/ d = Object.
Proof. destruct d; auto. Qed.

(** What [outlier_detection] returns on a series without text. *)
Lemma outlier_detection_numeric (df : DataFrame) (column : string) (j : nat) :
  index_of column (columns df) = Some j ->
  existsb is_str (column_at j (rows df)) = false ->
  let s := column_at j (rows df) in
  let q1 := match sort (dropna s) with
            | [] => NaN
            | arr => Fin (linear_quantile arr (1 # 4))
            end in
  let q3 := match sort (dropna s) with
            | [] => NaN
            | arr => Fin (linear_quantile arr (3 # 4))
            end in
  let iqr := fsub q3 q1 in
  let lower := fsub q1 (fmul (Fin (3 # 2)) iqr) in
  let upper := fadd q3 (fmul (Fin (3 # 2)) iqr) in
  App2.outlier_detection df column
  = Ok {| App2.Q1 := q1; App2.Q3 := q3; App2.IQR := iqr;
          App2.lower_bound := lower; App2.upper_bound := upper;
          App2.outliers :=
            getitem_mask df
              (series_or (map (fun x => fltb (to_float x) lower) s)
                         (map (fun x => fgtb (to_float x) upper) s)) |}.
Proof.
  intros Hj Hs. cbv zeta.
  unfold App2.outlier_detection, getitem, quantile. rewrite Hj.
  cbn [bind]. rewrite Hs.
  destruct (sort (dropna (column_at j (rows df)))) as [|v arr] eqn:E;
    cbn [bind]; rewrite series_lt_numeric, series_gt_numeric by exact Hs;
    reflexivity.
Qed.

Lemma quarter_bounds : (0 <= 1 # 4)%Q /\ (1 # 4 <= 1)%Q.
Proof. split; discriminate. Qed.

Lemma three_quarter_bounds : (0 <= 3 # 4)%Q /\ (3 # 4 <= 1)%Q.
Proof. split; discriminate. Qed.

(** The report of a numeric column of a parsed file. *)
Lemma outlier_report_numeric {grammar : NumberGrammar}
      (c : Csv) (df : DataFrame) (column : string) :
  App2.parse_contents c = Ok df ->
  NoDup (csv_header c) ->
  In column (num_cols df) ->
  exists (j : nat) (report : App2.OutlierReport),
    index_of column (columns df) = Some j
    /\ App2.outlier_detection df column = Ok report
    /\ App2.update_boxplot (Some column) (Some c)
       = Ok (BoxWithPoints df column (App2.outliers report), DisplayBlock)
    /\ (let values := sort (dropna (column_at j (rows df))) in
        (values <> [] ->
         feq (App2.Q1 report) (Fin (percentile_spec values (1 # 4)))
         /\ feq (App2.Q3 report) (Fin (percentile_spec values (3 # 4))))
        /\ (values = [] -> App2.Q1 report = NaN /\ App2.Q3 report = NaN))
    /\ App2.IQR report = fsub (App2.Q3 report) (App2.Q1 report)
    /\ App2.lower_bound report
       = fsub (App2.Q1 report) (fmul (Fin (3 # 2)) (App2.IQR report))
    /\ App2.upper_bound report
       = fadd (App2.Q3 report) (fmul (Fin (3 # 2)) (App2.IQR report))
    /\ (forall r,
          In r (rows (App2.outliers report))
          <-> In r (rows df)
              /\ (flt (to_float (nth j r NA)) (App2.lower_bound report)
                  \/ flt (App2.upper_bound report) (to_float (nth j r NA)))).
Proof.
  intros Hread Hnd Hnum.
  destruct (column_position c Hread Hnd column (num_cols_columns _ _ Hnum))
    as [j [Hj [Hlt Hdt]]].
  apply Hdt in Hnum.
  pose proof (numeric_column_no_text c Hread Hlt Hnum) as Hs.
  pose proof (outlier_detection_numeric df column Hj Hs) as Hrep.
  cbv zeta in Hrep.
  eexists j, _. split; [exact Hj|]. split; [exact Hrep|].
  split.
  { unfold App2.update_boxplot. rewrite Hread. cbn [bind].
    rewrite Hrep. reflexivity. }
  cbn [App2.Q1 App2.Q3 App2.IQR App2.lower_bound App2.upper_bound
       App2.outliers].
  split.
  { cbv zeta. destruct (sort (dropna (column_at j (rows df)))) as [|v arr].
    - split; [congruence | now split].
    - split; [|discriminate]. intros _. split; cbn [feq].
      + apply linear_quantile_spec; [discriminate | apply quarter_bounds ..].
      + apply linear_quantile_spec;
          [discriminate | apply three_quarter_bounds ..]. }
  split; [reflexivity|]. split; [reflexivity|]. split; [reflexivity|].
  intros r. apply outlier_rows.
Qed.



(** C2 (amended).  The scenario of the specification: the numeric columns
    are A and B; one duplicate, the third row (1, 10); for column A the
    sorted values are 1, 1, 2, 100, Q1 = 1 and Q3 = 26.5, which is what
    the rank-interpolation formula gives (index 0.75 * 3 = 2.25, between
    2 and 100); the upper bound is 64.75 and the row of 100 is the only
    outlier. *)
Theorem scenario_report :
  exists df report,
    App2.parse_contents scenario = Ok df
    /\ num_cols df = ["A"; "B"]
    /\ sum_bool (duplicated df) = 1
    /\ duplicated df = [false; false; true; false]
    /\ rows (getitem_mask df (duplicated df)) = [[Num 1; Num 10]]
    /\ App2.render_tab "duplicates" (Some scenario)
       = Ok (DuplicatePanel 1
               (Some ([[("A", Num 1); ("B", Num 10)]], ["A"; "B"])),
             [], DisplayNone)
    /\ App2.outlier_detection df "A" = Ok report
    /\ sort (dropna (column_at 0 (rows df))) = [1; 1; 2; 100]%Q
    /\ feq (App2.Q1 report) (Fin 1)
    /\ feq (App2.Q3 report) (Fin (53 # 2))
    /\ (percentile_spec [1; 1; 2; 100] (1 # 4) == 1)%Q
    /\ (percentile_spec [1; 1; 2; 100] (3 # 4) == 53 # 2)%Q
    /\ feq (App2.lower_bound report) (Fin (- (149 # 4)))
    /\ feq (App2.upper_bound report) (Fin (259 # 4))
    /\ rows (App2.outliers report) = [[Num 100; Num 5]].
Proof.
  do 2 eexists. split; [reflexivity|].
  repeat split; try reflexivity.
Qed.

(** C2, as stated, fails: Q3 of column A is not 2. *)
Lemma scenario_third_quartile :
  exists df report,
    App2.parse_contents scenario = Ok df
    /\ App2.outlier_detection df "A" = Ok report
    /\ ~ feq (App2.Q3 report) (Fin 2).
Proof.
  do 2 eexists. split; [reflexivity|]. split; [reflexivity|].
  cbn. discriminate.
Qed.

(* ================================================================== *)
(** * Columns outside the numeric set *)
(* ================================================================== *)

(** C5 (amended).  For every column of the numeric set of a parsed file,
    [update_boxplot] of app2 returns the figure of a report and raises
    nothing.  The callback has no failure value of its own: the box plot
    tab offers exactly the numeric columns, a name that is not a column
    raises KeyError, and a column that holds text raises TypeError. *)
Theorem update_boxplot_by_column {grammar : NumberGrammar}
        (c : Csv) (df : DataFrame) :
  App2.parse_contents c = Ok df ->
  NoDup (csv_header c) ->
  (forall column,
      In column (num_cols df) ->
      exists report,
        App2.outlier_detection df column = Ok report
        /\ App2.update_boxplot (Some column) (Some c)
           = Ok (BoxWithPoints df column (App2.outliers report),
                 DisplayBlock))
  /\ App2.render_tab "boxplots" (Some c)
     = Ok (BoxplotPanel None, num_cols df, DisplayBlock)
  /\ (forall column,
        ~ In column (columns df) ->
        App2.update_boxplot (Some column) (Some c) = Raise (KeyError column))
  /\ (forall column,
        In column (columns df) -> ~ In column (num_cols df) ->
        csv_body c <> [] ->
        App2.update_boxplot (Some column) (Some c) = Raise TypeError).
Proof.
  intros Hread Hnd. split; [|split; [|split]].
  - intros column Hnum.
    destruct (outlier_report_numeric c column Hread Hnd Hnum)
      as [j [report [_ [Hrep [Hfig _]]]]].
    now exists report.
  - unfold App2.render_tab. now rewrite Hread.
  - intros column Hnot. unfold App2.update_boxplot. rewrite Hread.
    cbn [bind]. unfold App2.outlier_detection, getitem.
    now rewrite (index_of_not_In _ _ Hnot).
  - intros column Hin Hnot Hrows.
    destruct (column_position c Hread Hnd column Hin) as [j [Hj [Hlt Hdt]]].
    assert (Hobj : infer_dtype (fields_at j (csv_body c)) = Object).
    { destruct (dtype_cases (infer_dtype (fields_at j (csv_body c))))
        as [E|E]; [|exact E]. elim Hnot. now apply Hdt. }
    pose proof (object_column_has_text c Hread Hlt Hrows Hobj) as Hs.
    unfold App2.update_boxplot. rewrite Hread. cbn [bind].
    unfold App2.outlier_detection, getitem, quantile. rewrite Hj.
    cbn [bind]. now rewrite Hs.
Qed.

(** The columns of the scenario, and a name that is not among them. *)
Lemma update_boxplot_by_column_witness :
  App2.parse_contents scenario = Ok scenario_frame
  /\ NoDup (csv_header scenario)
  /\ App2.render_tab "boxplots" (Some scenario)
     = Ok (BoxplotPanel None, num_cols scenario_frame, DisplayBlock)
  /\ App2.update_boxplot (Some "Z") (Some scenario) = Raise (KeyError "Z").
Proof.
  assert (Hread : App2.parse_contents scenario = Ok scenario_frame)
    by reflexivity.
  assert (Hnd : NoDup (csv_header scenario)) by distinct_names.
  split; [exact Hread|]. split; [exact Hnd|].
  destruct (update_boxplot_by_column scenario Hread Hnd)
    as [_ [Htab [Hkey _]]].
  split; [exact Htab|]. apply Hkey.
  simpl. intuition discriminate.
Defined.

(** C5, as stated, fails: for a name that is not a column of the file the
    callback raises, and for a text column as well. *)
Lemma invalid_column_raises :
  (exists df, App2.parse_contents scenario = Ok df /\ ~ In "Z" (num_cols df))
  /\ raises (App2.update_boxplot (Some "Z") (Some scenario))
  /\ (exists df, App2.parse_contents text_only = Ok df
                 /\ ~ In "name" (num_cols df))
  /\ raises (App2.update_boxplot (Some "name") (Some text_only)).
Proof.
  split.
  { eexists. split; [reflexivity|]. simpl. intuition discriminate. }
  split; [now exists (KeyError "Z")|].
  split.
  { eexists. split; [reflexivity|]. simpl. tauto. }
  now exists TypeError.
Qed.

(* ================================================================== *)
(** * Correlation *)
(* ================================================================== *)

Section Pearson.
Local Open Scope Q_scope.

Lemma complete_pairs_swap (xs ys : list cell) :
  complete_pairs ys xs = map swap (complete_pairs xs ys).
Proof.
  unfold complete_pairs. revert ys.
  induction xs as [|x xs IH]; intros [|y ys]; simpl; try reflexivity.
  rewrite IH. now destruct x, y.
Qed.

Lemma complete_pairs_diag (xs : list cell) :
  complete_pairs xs xs = map (fun q => (q, q)) (dropna xs).
Proof.
  unfold complete_pairs, dropna.
  induction xs as [|x xs IH]; simpl; [reflexivity|].
  rewrite IH. now destruct x.
Qed.

Lemma cross_sum_swap (mu mv : Q) (us vs : list Q) :
  qsum (map (fun p => (fst p - mv) * (snd p - mu)) (combine vs us))
  == qsum (map (fun p => (fst p - mu) * (snd p - mv)) (combine us vs)).
Proof.
  revert vs. induction us as [|u us IH]; intros [|v vs]; simpl;
    try reflexivity.
  rewrite IH. ring.
Qed.

Lemma codeviation_swap (us vs : list Q) :
  codeviation vs us == codeviation us vs.
Proof. unfold codeviation. apply cross_sum_swap. Qed.

Lemma square_nonneg (a : Q) : 0 <= a * a.
Proof.
  destruct (Qlt_le_dec a 0) as [H|H].
  - setoid_replace (a * a) with ((- a) * (- a)) by ring.
    apply Qmult_le_0_compat; apply Qlt_le_weak;
      now apply (Qopp_lt_compat a 0).
  - now apply Qmult_le_0_compat.
Qed.

Lemma square_sum_nonneg (m : Q) (l : list Q) :
  0 <= qsum (map (fun p => (fst p - m) * (snd p - m)) (combine l l)).
Proof.
  induction l as [|u l IH]; simpl; [discriminate|].
  rewrite <- (Qplus_0_l 0). apply Qplus_le_compat; [|exact IH].
  apply square_nonneg.
Qed.

Lemma codeviation_nonneg (l : list Q) : 0 <= codeviation l l.
Proof. unfold codeviation. apply square_sum_nonneg. Qed.

Lemma Qeq_bool_zero (a b : Q) : a == b -> Qeq_bool a 0 = Qeq_bool b 0.
Proof.
  intros H. destruct (Qeq_bool b 0) eqn:E.
  - apply Qeq_bool_iff. apply Qeq_bool_iff in E. now rewrite H.
  - destruct (Qeq_bool a 0) eqn:E'; [|reflexivity].
    apply Qeq_bool_iff in E'. apply Qeq_bool_neq in E.
    elim E. now rewrite <- H.
Qed.
End Pearson.

(** The coefficient does not depend on the order of the two columns. *)
Lemma pearson_sym (xs ys : list cell) : pearson ys xs = pearson xs ys.
Proof.
  unfold pearson. rewrite complete_pairs_swap.
  destruct (complete_pairs xs ys) as [|p ps] eqn:E; [reflexivity|].
  rewrite <- E. clear E p ps.
  set (ps := complete_pairs xs ys).
  assert (Hu : map fst (map swap ps) = map snd ps)
    by (rewrite map_map; reflexivity).
  assert (Hv : map snd (map swap ps) = map fst ps)
    by (rewrite map_map; reflexivity).
  rewrite Hu, Hv.
  destruct (map swap ps) eqn:E; destruct ps eqn:E'; try discriminate;
    [reflexivity|].
  rewrite <- E'. clear E E'.
  set (us := map fst ps). set (vs := map snd ps).
  rewrite (Qeq_bool_zero (Qmult_comm (codeviation vs vs) (codeviation us us))).
  destruct (Qeq_bool _ 0); [reflexivity|].
  rewrite (Qeq_eqR _ _ (codeviation_swap us vs)).
  rewrite (Qeq_eqR _ _ (Qmult_comm (codeviation vs vs) (codeviation us us))).
  reflexivity.
Qed.

(** A column with variance correlates with itself by 1. *)
Lemma pearson_diag (xs : list cell) :
  ~ (spread xs == 0)%Q -> pearson xs xs = Some 1%R.
Proof.
  intros Hs. unfold pearson. rewrite complete_pairs_diag.
  assert (Hu : map fst (map (fun q : Q => (q, q)) (dropna xs)) = dropna xs)
    by (rewrite map_map; apply map_id).
  assert (Hv : map snd (map (fun q : Q => (q, q)) (dropna xs)) = dropna xs)
    by (rewrite map_map; apply map_id).
  rewrite Hu, Hv. fold (spread xs).
  destruct (map _ (dropna xs)) eqn:E.
  - apply map_eq_nil in E. unfold spread in Hs. rewrite E in Hs.
    elim Hs. reflexivity.
  - clear E.
    destruct (Qeq_bool (spread xs * spread xs) 0) eqn:E.
    + apply Qeq_bool_iff in E. apply Qmult_integral in E. tauto.
    + f_equal. rewrite Q2R_mult.
      assert (Hpos : (0 <= Q2R (spread xs))%R).
      { rewrite <- RMicromega.Q2R_0. apply Qle_Rle, codeviation_nonneg. }
      assert (Hnz : Q2R (spread xs) <> 0%R).
      { intros H. apply Hs. apply eqR_Qeq. now rewrite RMicromega.Q2R_0. }
      rewrite sqrt_square by exact Hpos.
      now apply Rdiv_diag.
Qed.

(** ** Welford's method computes the sums of deviations *)

Section Welford.
Local Open Scope Q_scope.

Lemma qsum_app (l l' : list Q) : qsum (l ++ l') == qsum l + qsum l'.
Proof.
  induction l as [|x l IH]; simpl; [ring|]. rewrite IH. ring.
Qed.

Lemma Zlen_cons (A : Type) (x : A) (l : list A) :
  inject_Z (Zlen (x :: l)) == inject_Z (Zlen l) + 1.
Proof.
  unfold Zlen. cbn [length]. rewrite Nat2Z.inj_succ, <- Z.add_1_r.
  rewrite inject_Z_plus. reflexivity.
Qed.

Lemma Zlen_snoc (A : Type) (x : A) (l : list A) :
  Zlen (l ++ [x]) = (Zlen l + 1)%Z.
Proof. unfold Zlen. rewrite length_app. cbn [length]. lia. Qed.

Lemma Zlen_positive (A : Type) (l : list A) :
  l <> [] -> 0 < inject_Z (Zlen l).
Proof.
  intros H. change 0 with (inject_Z 0). rewrite <- Zlt_Qlt.
  unfold Zlen. destruct l; [congruence|]. cbn [length]. lia.
Qed.

Variables f g : Q * Q -> Q.

(** A sum of products of deviations, by the sums of the values. *)
Lemma deviation_raw (a b : Q) (ps : list (Q * Q)) :
  qsum (map (fun p => (f p - a) * (g p - b)) ps)
  == qsum (map (fun p => f p * g p) ps)
     - a * qsum (map g ps) - b * qsum (map f ps)
     + inject_Z (Zlen ps) * a * b.
Proof.
  induction ps as [|p ps IH].
  - cbn. ring.
  - cbn [map qsum fold_right]. fold (qsum (map g ps)).
    fold (qsum (map f ps)). fold (qsum (map (fun p => f p * g p) ps)).
    fold (qsum (map (fun p => (f p - a) * (g p - b)) ps)).
    rewrite IH, Zlen_cons. ring.
Qed.

Lemma combine_map (ps : list (Q * Q)) :
  combine (map f ps) (map g ps) = map (fun p => (f p, g p)) ps.
Proof.
  induction ps as [|p ps IH]; simpl; [reflexivity | now rewrite IH].
Qed.

Lemma codeviation_raw (ps : list (Q * Q)) :
  ps <> [] ->
  codeviation (map f ps) (map g ps)
  == qsum (map (fun p => f p * g p) ps)
     - qsum (map f ps) * qsum (map g ps) / inject_Z (Zlen ps).
Proof.
  intros Hne. pose proof (Zlen_positive Hne) as Hk.
  unfold codeviation, mean. rewrite combine_map, map_map. cbn [fst snd].
  rewrite deviation_raw.
  assert (El : forall h : Q * Q -> Q, Zlen (map h ps) = Zlen ps)
    by (intros h; unfold Zlen; now rewrite length_map).
  rewrite !El. field. intros H. rewrite H in Hk.
  now apply Qlt_irrefl in Hk.
Qed.
End Welford.

Section Moments.
Local Open Scope Q_scope.

Lemma positive_nonzero (x : Q) : 0 < x -> ~ x == 0.
Proof. intros H E. rewrite E in H. now apply Qlt_irrefl in H. Qed.

Lemma scan_pairs (xs ys : list cell) :
  scan xs ys
  = fold_left (fun m p => observe m (fst p) (snd p))
              (complete_pairs xs ys) no_moments.
Proof.
  unfold scan, complete_pairs. generalize no_moments. revert ys.
  induction xs as [|x xs IH]; intros [|y ys] m; simpl; try reflexivity.
  destruct x, y; simpl; apply IH.
Qed.

(** After any number of observations the running values are the mean
    and the sums of deviations of the observations made so far. *)
Lemma welford_moments (ps : list (Q * Q)) :
  let m := fold_left (fun m p => observe m (fst p) (snd p)) ps no_moments in
  let k := inject_Z (Zlen ps) in
  nobs m = Zlen ps
  /\ meanx m == qsum (map fst ps) / k
  /\ meany m == qsum (map snd ps) / k
  /\ ssqdm_x m == qsum (map (fun p => fst p * fst p) ps)
                  - qsum (map fst ps) * qsum (map fst ps) / k
  /\ ssqdm_y m == qsum (map (fun p => snd p * snd p) ps)
                  - qsum (map snd ps) * qsum (map snd ps) / k
  /\ covxy m == qsum (map (fun p => fst p * snd p) ps)
                - qsum (map fst ps) * qsum (map snd ps) / k.
Proof.
  cbv zeta. induction ps as [|p ps IH] using rev_ind.
  - cbn. repeat split; reflexivity.
  - rewrite fold_left_app. cbn [fold_left].
    destruct IH as (Hn & Hmx & Hmy & Hsx & Hsy & Hc).
    set (m := fold_left _ ps no_moments) in *.
    rewrite !map_app, !qsum_app, Zlen_snoc, inject_Z_plus.
    cbn [map qsum fold_right].
    unfold observe. cbn [nobs meanx meany ssqdm_x ssqdm_y covxy].
    rewrite Hn, inject_Z_plus.
    destruct ps as [|p0 ps0].
    + (* the first observation *)
      subst m. cbn.
      split; [reflexivity|]. repeat split; field.
    + (* one more observation *)
      pose proof (@Zlen_positive _ (p0 :: ps0) ltac:(discriminate)) as Hk.
      rewrite Hmx, Hmy, Hsx, Hsy, Hc.
      generalize dependent (inject_Z (Zlen (p0 :: ps0))). intros k _ _ _ _ _ Hk.
      split; [reflexivity|].
      repeat split; field;
        (split; apply positive_nonzero; [|exact Hk];
         change 0 with (0 + 0); apply Qplus_lt_le_compat;
         [exact Hk | discriminate]).
Qed.
End Moments.

(** ** The coefficient lies between -1 and 1 *)

Section CauchySchwarz.
Local Open Scope Q_scope.

Variables a b : Q * Q -> Q.
Variable ps : list (Q * Q).

Lemma quadratic_sum (t : Q) :
  qsum (map (fun p => (a p * t + b p) * (a p * t + b p)) ps)
  == qsum (map (fun p => a p * a p) ps) * t * t
     + 2 * qsum (map (fun p => a p * b p) ps) * t
     + qsum (map (fun p => b p * b p) ps).
Proof.
  induction ps as [|p l IH]; cbn [map qsum fold_right]; [ring|].
  fold (qsum (map (fun p => (a p * t + b p) * (a p * t + b p)) l)).
  fold (qsum (map (fun p => a p * a p) l)).
  fold (qsum (map (fun p => a p * b p) l)).
  fold (qsum (map (fun p => b p * b p) l)).
  rewrite IH. ring.
Qed.

Lemma squares_sum_nonneg (h : Q * Q -> Q) :
  0 <= qsum (map (fun p => h p * h p) ps).
Proof.
  induction ps as [|p l IH]; cbn [map qsum fold_right]; [discriminate|].
  change 0 with (0 + 0). apply Qplus_le_compat; [apply square_nonneg|].
  exact IH.
Qed.

(** A quadratic that is never negative has no positive discriminant. *)
Lemma discriminant (A B C : Q) :
  0 <= A ->
  (forall t, 0 <= A * t * t + 2 * C * t + B) ->
  C * C <= A * B.
Proof.
  intros HA H. destruct (Qeq_dec A 0) as [EA|EA].
  - destruct (Qeq_dec C 0) as [EC|EC].
    + rewrite EA, EC. discriminate.
    + exfalso. specialize (H (- (B + 1) / (2 * C))).
      assert (E : A * (- (B + 1) / (2 * C)) * (- (B + 1) / (2 * C))
                  + 2 * C * (- (B + 1) / (2 * C)) + B == - (1))
        by (rewrite EA; field; exact EC).
      rewrite E in H. now apply H.
  - specialize (H (- C / A)).
    assert (E : A * (- C / A) * (- C / A) + 2 * C * (- C / A) + B
                == (A * B - C * C) / A) by (field; exact EA).
    rewrite E in H.
    assert (Hpos : 0 < A).
    { apply Qle_lteq in HA. destruct HA as [HA|HA]; [exact HA|].
      elim EA. now symmetry. }
    assert (Hd : 0 <= A * B - C * C).
    { setoid_replace (A * B - C * C) with ((A * B - C * C) / A * A)
        by (field; exact EA).
      apply Qmult_le_0_compat; [exact H | now apply Qlt_le_weak]. }
    setoid_replace (C * C) with (C * C + 0) by ring.
    setoid_replace (A * B) with (C * C + (A * B - C * C)) by ring.
    now apply Qplus_le_compat; [apply Qle_refl|].
Qed.

Lemma cauchy_schwarz :
  qsum (map (fun p => a p * b p) ps) * qsum (map (fun p => a p * b p) ps)
  <= qsum (map (fun p => a p * a p) ps)
     * qsum (map (fun p => b p * b p) ps).
Proof.
  apply discriminant; [apply squares_sum_nonneg|].
  intros t. rewrite <- quadratic_sum.
  apply (squares_sum_nonneg (fun p => a p * t + b p)).
Qed.
End CauchySchwarz.

Lemma codeviation_pairs (f g : Q * Q -> Q) (ps : list (Q * Q)) :
  codeviation (map f ps) (map g ps)
  = qsum (map (fun p => (f p - mean (map f ps)) * (g p - mean (map g ps)))%Q
              ps).
Proof.
  unfold codeviation. now rewrite combine_map, map_map.
Qed.

(** The square of the codeviation is at most the product of the two sums
    of squared deviations. *)
Lemma codeviation_bound (ps : list (Q * Q)) :
  (codeviation (map fst ps) (map snd ps) * codeviation (map fst ps) (map snd ps)
   <= codeviation (map fst ps) (map fst ps)
      * codeviation (map snd ps) (map snd ps))%Q.
Proof.
  rewrite !codeviation_pairs.
  apply (cauchy_schwarz (fun p => fst p - mean (map fst ps))%Q
                        (fun p => snd p - mean (map snd ps))%Q).
Qed.

Section Clip.
Local Open Scope R_scope.

Lemma clip_inside (v : R) : -1 <= v <= 1 -> clip v = v.
Proof.
  intros [Hlo Hhi]. unfold clip.
  destruct (Rlt_dec 1 v); [lra|]. destruct (Rlt_dec v (-1)); lra.
Qed.

Lemma ratio_bounds (c p : R) :
  c * c <= p -> sqrt p <> 0 -> -1 <= c / sqrt p <= 1.
Proof.
  intros Hc Hd.
  assert (Hpos : 0 < sqrt p).
  { pose proof (sqrt_pos p). lra. }
  assert (Habs : Rabs c <= sqrt p).
  { rewrite <- sqrt_Rsqr_abs. apply sqrt_le_1_alt. exact Hc. }
  assert (Hlo : - sqrt p <= c <= sqrt p).
  { unfold Rabs in Habs. destruct (Rcase_abs c); lra. }
  assert (Hinv : 0 < / sqrt p) by now apply Rinv_0_lt_compat.
  assert (Hone : sqrt p * / sqrt p = 1) by now apply Rinv_r.
  unfold Rdiv. split; nra.
Qed.
End Clip.

(** ** [nancorr] computes the Pearson coefficient *)

Lemma nancorr_pearson (xs ys : list cell) :
  nancorr_entry xs ys = pearson xs ys.
Proof.
  unfold nancorr_entry, pearson. rewrite scan_pairs.
  set (ps := complete_pairs xs ys).
  destruct (welford_moments ps) as (Hn & _ & _ & Hsx & Hsy & Hc).
  cbv zeta in *.
  set (m := fold_left _ ps no_moments) in *. rewrite Hn.
  destruct ps as [|p0 ps0] eqn:E; [reflexivity|]. rewrite <- E in *.
  assert (Hne : ps <> []) by (rewrite E; discriminate).
  replace (Zlen ps <? 1)%Z with false
    by (symmetry; apply Z.ltb_ge; rewrite E; unfold Zlen; cbn [length]; lia).
  rewrite <- (codeviation_raw fst fst Hne) in Hsx.
  rewrite <- (codeviation_raw snd snd Hne) in Hsy.
  rewrite <- (codeviation_raw fst snd Hne) in Hc.
  set (ssx := codeviation (map fst ps) (map fst ps)) in *.
  set (ssy := codeviation (map snd ps) (map snd ps)) in *.
  set (cxy := codeviation (map fst ps) (map snd ps)) in *.
  assert (HP : Q2R (ssqdm_x m * ssqdm_y m) = Q2R (ssx * ssy))
    by (apply Qeq_eqR; now rewrite Hsx, Hsy).
  rewrite HP, (Qeq_eqR _ _ Hc).
  assert (Hpos : (0 <= Q2R (ssx * ssy))%R).
  { rewrite <- RMicromega.Q2R_0. apply Qle_Rle.
    apply Qmult_le_0_compat; apply codeviation_nonneg. }
  destruct (Req_EM_T (sqrt (Q2R (ssx * ssy))) 0) as [Hz|Hnz];
    destruct (Qeq_bool (ssx * ssy) 0) eqn:EP; try reflexivity.
  - exfalso. apply Qeq_bool_neq in EP. apply EP. apply eqR_Qeq.
    rewrite RMicromega.Q2R_0. now apply sqrt_eq_0.
  - exfalso. apply Hnz. apply Qeq_bool_iff in EP.
    rewrite (Qeq_eqR _ _ EP), RMicromega.Q2R_0. apply sqrt_0.
  - f_equal. apply clip_inside. apply ratio_bounds; [|exact Hnz].
    rewrite <- Q2R_mult. apply Qle_Rle. apply codeviation_bound.
Qed.

(** ** The matrix of the numeric columns *)

Lemma index_of_nth (name : string) (names : list string) (j : nat) :
  index_of name names = Some j -> nth_error names j = Some name.
Proof.
  revert j. induction names as [|n names IH]; simpl; [discriminate|].
  intros j. destruct (String.eqb name n) eqn:E.
  - apply String.eqb_eq in E. now intros [= <-]; subst.
  - destruct (index_of name names) as [k|]; [|discriminate].
    intros [= <-]. now apply IH.
Qed.

Lemma locate_total (names cols : list string) :
  incl names cols -> exists js, locate names cols = Ok js.
Proof.
  induction names as [|n names IH]; intros H; simpl; [now exists []|].
  destruct (index_of_In n cols (H n (or_introl eq_refl))) as [j [Hj _]].
  rewrite Hj. destruct IH as [js Hjs]; [intros x Hx; apply H; now right|].
  rewrite Hjs. now exists (j :: js).
Qed.

Lemma locate_nth (names cols : list string) :
  forall js, locate names cols = Ok js ->
    length js = length names
    /\ forall i a, nth_error names i = Some a ->
         exists j, nth_error js i = Some j /\ index_of a cols = Some j.
Proof.
  induction names as [|n names IH]; simpl; intros js H.
  - inversion H. split; [reflexivity|]. now intros [|i].
  - destruct (index_of n cols) as [j|] eqn:Ej; [|discriminate].
    destruct (locate names cols) as [js'|] eqn:E; [|discriminate].
    inversion H; subst. destruct (IH js' eq_refl) as [Hlen Hnth].
    split; [simpl; now rewrite Hlen|].
    intros [|i] a; simpl.
    + intros [= <-]. now exists j.
    + apply Hnth.
Qed.

Lemma nth_map_some (A B : Type) (f : A -> B) (l : list A) (i : nat)
      (x : A) (d : B) :
  nth_error l i = Some x -> nth i (map f l) d = f x.
Proof.
  intros H. apply nth_error_nth. now apply map_nth_error.
Qed.

Section Matrix.
Variable df : DataFrame.
Variables (names : list string) (sub : DataFrame).
Hypothesis Hsub : getitem_list df names = Ok sub.

Lemma sub_frame :
  exists js,
    locate names (columns df) = Ok js
    /\ sub = {| header := map (fun j => nth j (header df) (""%string, Object))
                              js;
                rows := map (fun r => map (fun j => nth j r NA) js)
                            (rows df) |}.
Proof.
  unfold getitem_list in Hsub.
  destruct (locate names (columns df)) as [js|]; [|discriminate].
  exists js. split; [reflexivity|]. now inversion Hsub.
Qed.

Lemma sub_width : length (header sub) = length names.
Proof.
  destruct sub_frame as [js [Hjs ->]]. cbn [header].
  rewrite length_map. now apply locate_nth in Hjs.
Qed.

Lemma sub_columns : columns sub = names.
Proof.
  destruct sub_frame as [js [Hjs ->]]. unfold columns. cbn [header].
  apply nth_error_ext. intros i.
  destruct (locate_nth _ _ Hjs) as [Hlen Hnth].
  rewrite map_map, nth_error_map.
  destruct (nth_error names i) as [a|] eqn:Ea.
  - destruct (Hnth i a Ea) as [j [Hj Hidx]]. rewrite Hj. cbn [option_map].
    f_equal. apply index_of_nth in Hidx. unfold columns in Hidx.
    rewrite nth_error_map in Hidx.
    destruct (nth_error (header df) j) as [h|] eqn:Eh; [|discriminate].
    inversion Hidx. now rewrite (nth_error_nth _ _ _ Eh).
  - apply nth_error_None in Ea. rewrite <- Hlen in Ea.
    apply nth_error_None in Ea. now rewrite Ea.
Qed.

(** A column of the selection is the column of that name in the
    frame. *)
Lemma sub_column (i : nat) (a : string) :
  nth_error names i = Some a ->
  getitem df a = Ok (column_at i (rows sub)).
Proof.
  intros Ha. destruct sub_frame as [js [Hjs ->]]. cbn [rows].
  destruct (locate_nth _ _ Hjs) as [_ Hnth].
  destruct (Hnth i a Ha) as [j [Hj Hidx]].
  unfold getitem. rewrite Hidx. f_equal.
  unfold column_at. rewrite map_map. apply map_ext. intros r.
  symmetry.
  exact (@nth_map_some _ _ (fun k => nth k r NA) js i j NA Hj).
Qed.

Lemma seq_nth_error (k i : nat) : i < k -> nth_error (seq 0 k) i = Some i.
Proof.
  intros H. rewrite nth_error_seq. apply Nat.ltb_lt in H. now rewrite H.
Qed.

(** The entry as [nancorr] writes it: computed for the pair with the
    larger index first. *)
Lemma corr_entry_mirrored (i j : nat) :
  i < length names -> j < length names ->
  entry (corr sub) i j
  = if (j <=? i)%nat
    then nancorr_entry (column_at i (rows sub)) (column_at j (rows sub))
    else nancorr_entry (column_at j (rows sub)) (column_at i (rows sub)).
Proof.
  intros Hi Hj. unfold entry, corr. cbn [entries]. rewrite sub_width.
  rewrite (@nth_map_some _ _ _ _ i i [] (seq_nth_error Hi)).
  now rewrite (@nth_map_some _ _ _ _ j j None (seq_nth_error Hj)).
Qed.

Lemma corr_entry (i j : nat) :
  i < length names -> j < length names ->
  entry (corr sub) i j
  = pearson (column_at i (rows sub)) (column_at j (rows sub)).
Proof.
  intros Hi Hj. rewrite (corr_entry_mirrored Hi Hj).
  destruct (j <=? i)%nat; rewrite nancorr_pearson;
    [reflexivity | apply pearson_sym].
Qed.

Lemma corr_shape :
  labels (corr sub) = names
  /\ length (entries (corr sub)) = length names
  /\ forall line, In line (entries (corr sub)) ->
                  length line = length names.
Proof.
  unfold corr. cbn [labels entries]. rewrite sub_width.
  split; [exact sub_columns|].
  split; [now rewrite length_map, length_seq|].
  intros line Hin. apply in_map_iff in Hin. destruct Hin as [x [<- _]].
  now rewrite length_map, length_seq.
Qed.
End Matrix.

Lemma corr_numeric (df : DataFrame) :
  exists sub, getitem_list df (num_cols df) = Ok sub.
Proof.
  unfold getitem_list.
  destruct (locate_total (names := num_cols df) (cols := columns df))
    as [js Hjs].
  - intros name. apply num_cols_columns.
  - rewrite Hjs. cbn [bind]. now eexists.
Qed.

(** The properties of the matrix of a selection of columns. *)
Lemma corr_properties (df sub : DataFrame) (names : list string) :
  getitem_list df names = Ok sub ->
  labels (corr sub) = names
  /\ length (entries (corr sub)) = length names
  /\ (forall line, In line (entries (corr sub)) ->
                   length line = length names)
  /\ (forall i j a b,
        nth_error names i = Some a -> nth_error names j = Some b ->
        exists xs ys,
          getitem df a = Ok xs /\ getitem df b = Ok ys
          /\ entry (corr sub) i j = pearson xs ys
          /\ entry (corr sub) j i = entry (corr sub) i j)
  /\ (forall i a xs,
        nth_error names i = Some a -> getitem df a = Ok xs ->
        ~ (spread xs == 0)%Q ->
        entry (corr sub) i i = Some 1%R).
Proof.
  intros Hsub.
  destruct (@corr_shape _ _ _ Hsub) as [Hl [Hn Hw]].
  split; [exact Hl|]. split; [exact Hn|]. split; [exact Hw|]. split.
  - intros i j a b Ha Hb.
    assert (Hi : i < length names) by (apply nth_error_Some; congruence).
    assert (Hj : j < length names) by (apply nth_error_Some; congruence).
    exists (column_at i (rows sub)), (column_at j (rows sub)).
    split; [exact (@sub_column _ _ _ Hsub i a Ha)|].
    split; [exact (@sub_column _ _ _ Hsub j b Hb)|].
    rewrite (@corr_entry _ _ _ Hsub i j Hi Hj), (@corr_entry _ _ _ Hsub j i Hj Hi).
    split; [reflexivity | apply pearson_sym].
  - intros i a xs Ha Hxs Hvar.
    assert (Hi : i < length names) by (apply nth_error_Some; congruence).
    rewrite (@sub_column _ _ _ Hsub i a Ha) in Hxs. inversion Hxs; subst.
    rewrite (@corr_entry _ _ _ Hsub i i Hi Hi). now apply pearson_diag.
Qed.

Lemma app2_correlation_tab {grammar : NumberGrammar}
      (c : Csv) (df sub : DataFrame) :
  App2.parse_contents c = Ok df ->
  getitem_list df (num_cols df) = Ok sub ->
  App2.render_tab "correlation" (Some c)
  = Ok (Graph (Imshow (corr sub)), [], DisplayNone).
Proof.
  intros Hread Hsub. unfold App2.render_tab. rewrite Hread.
  cbn [bind String.eqb Ascii.eqb Bool.eqb]. fold (num_cols df).
  now rewrite Hsub.
Qed.



(* ================================================================== *)
(** * The remaining callbacks *)
(* ================================================================== *)

Lemma toggle_dark_mode_cases (n : nat) :
  (n = 2 * (n / 2) + 1 /\ App1.toggle_dark_mode n = "dark")
  \/ (n = 2 * (n / 2) /\ App1.toggle_dark_mode n = "secondary").
Proof.
  unfold App1.toggle_dark_mode.
  pose proof (Nat.div_mod_eq n 2) as Hd.
  pose proof (Nat.mod_upper_bound n 2 ltac:(discriminate)) as Hm.
  assert (H : n mod 2 = 0 \/ n mod 2 = 1) by lia.
  destruct H as [H|H]; rewrite H in *; [right | left]; split;
    try reflexivity; lia.
Qed.

(** X1.  [toggle_dark_mode] of app1.py: the button is dark exactly after
    an odd number of clicks; one more click always changes its colour and
    two more clicks give the same colour again. *)
Theorem toggle_dark_mode_alternates (n : nat) :
  (App1.toggle_dark_mode n = "dark" <-> Nat.Odd n)
  /\ (App1.toggle_dark_mode n = "secondary" <-> Nat.Even n)
  /\ App1.toggle_dark_mode (S n) <> App1.toggle_dark_mode n
  /\ App1.toggle_dark_mode (S (S n)) = App1.toggle_dark_mode n.
Proof.
  destruct (toggle_dark_mode_cases n) as [[Hn ->]|[Hn ->]];
    destruct (toggle_dark_mode_cases (S n)) as [[Hs ->]|[Hs ->]];
    destruct (toggle_dark_mode_cases (S (S n))) as [[Hss ->]|[Hss ->]];
    try lia.
  - split; [split; [intros _; exists (n / 2); lia | reflexivity]|].
    split; [split; [discriminate | intros [k Hk]; lia]|].
    split; [discriminate | reflexivity].
  - split; [split; [discriminate | intros [k Hk]; lia]|].
    split; [split; [intros _; exists (n / 2); lia | reflexivity]|].
    split; [discriminate | reflexivity].
Qed.

(** The five tab names, and any other value. *)
Lemma tab_cases (tab : string) :
  tab = "overview" \/ tab = "correlation" \/ tab = "boxplots"
  \/ tab = "missing" \/ tab = "duplicates"
  \/ ((tab =? "overview") = false /\ (tab =? "correlation") = false
      /\ (tab =? "boxplots") = false /\ (tab =? "missing") = false
      /\ (tab =? "duplicates") = false).
Proof.
  destruct (tab =? "overview") eqn:E1;
    [apply String.eqb_eq in E1; tauto|].
  destruct (tab =? "correlation") eqn:E2;
    [apply String.eqb_eq in E2; tauto|].
  destruct (tab =? "boxplots") eqn:E3;
    [apply String.eqb_eq in E3; tauto|].
  destruct (tab =? "missing") eqn:E4;
    [apply String.eqb_eq in E4; tauto|].
  destruct (tab =? "duplicates") eqn:E5;
    [apply String.eqb_eq in E5; tauto|].
  repeat right. tauto.
Qed.

(** What [render_tab] of app.py answers for each tab. *)
Lemma app_render_tab_cases (tab : string) (d : list record) :
  (exists view, App.render_tab tab (Some d) = Ok view
                /\ (tab = "boxplots" -> num_cols (from_records d) <> []))
  \/ (App.render_tab tab (Some d) = Raise IndexError
      /\ tab = "boxplots" /\ num_cols (from_records d) = []).
Proof.
  destruct (tab_cases tab)
    as [-> | [-> | [-> | [-> | [-> | (E1 & E2 & E3 & E4 & E5)]]]]].
  - left. eexists. split; [reflexivity | discriminate].
  - left. destruct (corr_numeric (from_records d)) as [sub Hsub].
    unfold App.render_tab. cbn [String.eqb Ascii.eqb Bool.eqb].
    fold (num_cols (from_records d)).
    destruct (num_cols (from_records d)) as [|a names] eqn:E.
    + eexists. split; [reflexivity | discriminate].
    + rewrite Hsub. eexists. split; [reflexivity | discriminate].
  - unfold App.render_tab. cbn [String.eqb Ascii.eqb Bool.eqb].
    fold (num_cols (from_records d)).
    destruct (num_cols (from_records d)) as [|a names] eqn:E.
    + right. now repeat split.
    + left. eexists. split; [reflexivity | discriminate].
  - left. eexists. split; [reflexivity | discriminate].
  - left. eexists. split; [reflexivity | discriminate].
  - left. unfold App.render_tab. rewrite E1, E2, E3, E4, E5.
    eexists. split; [reflexivity|]. intros ->. discriminate.
Qed.

(** X2.  [render_tab] of app.py, once data is stored: the callback raises
    exactly when the box plot tab is selected and the frame has no numeric
    column, and what it raises then is IndexError; for every other tab
    value, known or not, and for every stored data, it returns a view. *)
Theorem app_render_tab_failure (tab : string) (d : list record) :
  (raises (App.render_tab tab (Some d))
   <-> tab = "boxplots" /\ num_cols (from_records d) = [])
  /\ (forall e, App.render_tab tab (Some d) = Raise e -> e = IndexError)
  /\ (~ raises (App.render_tab tab (Some d))
      -> exists view, App.render_tab tab (Some d) = Ok view).
Proof.
  destruct (app_render_tab_cases tab d) as [[view [H Hb]] | [H [Ht Hn]]];
    rewrite H.
  - split; [split|split].
    + intros [e He]. discriminate.
    + intros [Ht Hn]. now elim (Hb Ht).
    + intros e He. discriminate.
    + intros _. now exists view.
  - split; [split|split].
    + intros _. now split.
    + intros _. now exists IndexError.
    + intros e He. now inversion He.
    + intros Hr. elim Hr. now exists IndexError.
Qed.

(** The tabs of app1.py on a parsed upload. *)
Lemma app1_render_tab_parsed {grammar : NumberGrammar}
      (tab : string) (c : Csv) (df : DataFrame) :
  App1.parse_contents c = Ok df ->
  exists view, App1.render_tab tab (Some c) = Ok (view, csv_header c).
Proof.
  intros Hread.
  pose proof (read_csv_columns c Hread) as Hc.
  destruct (corr_numeric df) as [sub Hsub].
  unfold App1.render_tab. rewrite Hread. cbn [bind].
  fold (num_cols df). rewrite Hc.
  destruct (tab_cases tab)
    as [-> | [-> | [-> | [-> | [-> | (E1 & E2 & E3 & E4 & E5)]]]]];
    cbn [String.eqb Ascii.eqb Bool.eqb];
    rewrite ?E1, ?E2, ?E3, ?E4, ?E5, ?Hsub; cbn [bind]; now eexists.
Qed.


(** X4.  [render_tab] of app2.py never fails on its own: when the upload
    parses, every tab value gives a view; the box plot dropdown is shown,
    with the numeric columns as its options, exactly on the box plot tab,
    and hidden without options on every other tab; when parsing raises,
    the callback raises the same exception. *)
Theorem app2_render_tab_total {grammar : NumberGrammar}
        (tab : string) (c : Csv) :
  match App2.parse_contents c with
  | Ok df => exists view,
      App2.render_tab tab (Some c)
      = Ok (view,
            (if tab =? "boxplots" then num_cols df else []),
            (if tab =? "boxplots" then DisplayBlock else DisplayNone))
  | Raise e => App2.render_tab tab (Some c) = Raise e
  end.
Proof.
  destruct (App2.parse_contents c) as [df|e] eqn:Hread;
    [|unfold App2.render_tab; now rewrite Hread].
  destruct (corr_numeric df) as [sub Hsub].
  unfold App2.render_tab. rewrite Hread. cbn [bind].
  fold (num_cols df).
  destruct (tab_cases tab)
    as [-> | [-> | [-> | [-> | [-> | (E1 & E2 & E3 & E4 & E5)]]]]];
    cbn [String.eqb Ascii.eqb Bool.eqb];
    rewrite ?E1, ?E2, ?E3, ?E4, ?E5, ?Hsub; cbn [bind]; now eexists.
Qed.

Lemma firstn_incl (A : Type) (n : nat) (l : list A) (x : A) :
  In x (firstn n l) -> In x l.
Proof.
  revert l; induction n as [|n IH]; intros [|y l]; simpl; try tauto.
  intros [H|H]; [now left | right; now apply IH].
Qed.

Lemma firstn_of_map (A B : Type) (f : A -> B) (n : nat) (l : list A) :
  firstn n (map f l) = map f (firstn n l).
Proof.
  revert l; induction n as [|n IH]; intros [|y l]; simpl; try reflexivity.
  now rewrite IH.
Qed.

Lemma record_keys_of_row (df : DataFrame) (r : row) :
  rectangular df -> In r (rows df) ->
  map fst (combine (columns df) r) = columns df.
Proof.
  intros Hrect Hin. apply map_fst_combine.
  unfold rectangular in Hrect. rewrite Forall_forall in Hrect.
  unfold columns. rewrite length_map. symmetry. now apply Hrect.
Qed.



(** ** Box plots of app.py and app1.py *)

Lemma px_box_column (df : DataFrame) (column : string) :
  (In column (columns df) -> px_box df column = Ok (Box df column))
  /\ (~ In column (columns df) -> px_box df column = Raise ValueError).
Proof.
  unfold px_box. split; intros H.
  - destruct (index_of_In _ _ H) as [j [Hj _]]. now rewrite Hj.
  - now rewrite (index_of_not_In _ _ H).
Qed.

(** X6.  The box plot tab of app.py and its [update_boxplot]: when the tab
    is rendered, the options of its dropdown are the numeric columns of
    the stored frame, the preselected value is the first of them, and
    [update_boxplot] returns the box plot of the stored frame for the
    preselected value and for every option. *)
Theorem app_boxplot_options (d : list record) (options : list string)
        (value : option string) :
  App.render_tab "boxplots" (Some d)
  = Ok (BoxplotPanel (Some (options, value))) ->
  options = num_cols (from_records d)
  /\ (exists first rest, options = first :: rest /\ value = Some first)
  /\ (forall column,
        In column options \/ value = Some column ->
        App.update_boxplot (Some column) (Some d)
        = Ok (Box (from_records d) column)).
Proof.
  unfold App.render_tab. cbn [String.eqb Ascii.eqb Bool.eqb].
  fold (num_cols (from_records d)).
  destruct (num_cols (from_records d)) as [|a names] eqn:E; [discriminate|].
  intros H. inversion H; subst. clear H.
  split; [reflexivity|]. split.
  - now exists a, names.
  - intros column Hin.
    assert (Hcol : In column (num_cols (from_records d))).
    { rewrite E. destruct Hin as [Hin|Hin]; [exact Hin|].
      inversion Hin. now left. }
    unfold App.update_boxplot.
    now apply px_box_column, num_cols_columns.
Qed.

(** The box plot tab on the stored records of the scenario. *)
Lemma app_boxplot_options_witness :
  App.render_tab "boxplots" (Some (to_dict_records scenario_frame))
  = Ok (BoxplotPanel (Some (["A"; "B"], Some "A")))
  /\ App.update_boxplot (Some "B") (Some (to_dict_records scenario_frame))
     = Ok (Box (from_records (to_dict_records scenario_frame)) "B").
Proof.
  assert (H : App.render_tab "boxplots"
                (Some (to_dict_records scenario_frame))
              = Ok (BoxplotPanel (Some (["A"; "B"], Some "A"))))
    by reflexivity.
  split; [exact H|].
  destruct (app_boxplot_options _ H) as (_ & _ & Hbox).
  apply Hbox. left. right. now left.
Defined.






(** ** Missing values of a parsed file *)

Lemma filter_map_length (A B : Type) (p : B -> bool) (q : A -> bool)
      (f : A -> B) (l : list A) :
  (forall x, In x l -> p (f x) = q x) ->
  length (filter p (map f l)) = length (filter q l).
Proof.
  induction l as [|x l IH]; intros H; simpl; [reflexivity|].
  rewrite (H x (or_introl eq_refl)).
  destruct (q x); simpl; rewrite IH; auto; intros y Hy; apply H; now right.
Qed.

Lemma filter_length_bound (A : Type) (p : A -> bool) (l : list A) :
  length (filter p l) <= length l.
Proof.
  induction l as [|x l IH]; simpl; [lia|]. destruct (p x); simpl; lia.
Qed.

(** A cell is missing exactly when its field is one of the missing-value
    markers. *)
Lemma isna_convert {grammar : NumberGrammar} (fields : list string) (f : string) :
  In f fields ->
  isna (convert (infer_dtype fields) f) = is_na_field f.
Proof.
  intros Hin. unfold convert, infer_dtype.
  destruct (is_na_field f) eqn:Hna; [reflexivity|].
  destruct fields as [|f0 fs] eqn:E; [destruct Hin|]. rewrite <- E in *.
  destruct (forallb _ fields) eqn:Eall; [|reflexivity].
  rewrite forallb_forall in Eall. specialize (Eall f Hin).
  rewrite Hna in Eall. unfold parses in Eall.
  now destruct (parse_number f).
Qed.



(** ** Duplicates and first occurrences *)

Lemma cell_eq_trans (a b c : cell) : cell_eq a b -> cell_eq b c -> cell_eq a c.
Proof.
  destruct a, b, c; simpl; try tauto.
  - apply Qeq_trans.
  - congruence.
Qed.

Lemma row_eq_trans (r s t : row) : row_eq r s -> row_eq s t -> row_eq r t.
Proof.
  unfold row_eq. intros H. revert t.
  induction H as [|a b r s Hab _ IH]; intros t Ht; inversion Ht; subst;
    constructor; [eapply cell_eq_trans; eassumption | now apply IH].
Qed.

Lemma cell_eq_refl (a : cell) : cell_eq a a.
Proof. destruct a; simpl; auto. apply Qeq_refl. Qed.

Lemma row_eq_refl (r : row) : row_eq r r.
Proof.
  unfold row_eq. induction r; constructor; auto using cell_eq_refl.
Qed.

(** Every marked row has an identical row before it that is not
    marked. *)
Lemma duplicated_original (df : DataFrame) :
  forall i, i < length (rows df) ->
    nth i (duplicated df) false = true ->
    exists j, j < i /\ nth j (duplicated df) false = false
              /\ row_eq (nth j (rows df) []) (nth i (rows df) []).
Proof.
  intros i. induction i as [i IH] using lt_wf_ind. intros Hi Hflag.
  apply duplicated_spec in Hflag; [|exact Hi].
  destruct Hflag as [j [Hj He]].
  destruct (nth j (duplicated df) false) eqn:Ej.
  - destruct (IH j Hj ltac:(lia) Ej) as [k (Hk & Hflag & Hek)].
    exists k. split; [lia|]. split; [exact Hflag|].
    eapply row_eq_trans; eassumption.
  - now exists j.
Qed.

Lemma sum_bool_zero (mask : list bool) :
  sum_bool mask = 0 <-> forall i, nth i mask false = false.
Proof.
  unfold sum_bool. induction mask as [|b mask IH]; simpl.
  - split; [intros _ [|i]; reflexivity | reflexivity].
  - destruct b; simpl.
    + split; [discriminate | intros H; specialize (H 0); discriminate].
    + rewrite IH. split.
      * intros H [|i]; [reflexivity | apply H].
      * intros H i. apply (H (S i)).
Qed.

(** X10.  The duplicates of a frame and their first occurrences: every
    row listed as a duplicate is identical to an earlier row that is not
    listed; two rows that are both not listed are never identical; and
    the duplicate count is zero exactly when no two rows of the frame are
    identical. *)
Theorem duplicates_and_first_occurrences (df : DataFrame) :
  let mask := duplicated df in
  let rs := rows df in
  (forall i, i < length rs -> nth i mask false = true ->
     exists j, j < i /\ nth j mask false = false
               /\ row_eq (nth j rs []) (nth i rs []))
  /\ (forall i j, i < j -> j < length rs ->
        nth i mask false = false -> nth j mask false = false ->
        ~ row_eq (nth i rs []) (nth j rs []))
  /\ (sum_bool mask = 0
      <-> forall i j, i < j -> j < length rs ->
                      ~ row_eq (nth i rs []) (nth j rs []))
  /\ (sum_bool mask = 0
      <-> duplicates_panel df = DuplicatePanel 0 None).
Proof.
  cbv zeta. split; [apply duplicated_original|]. split.
  - intros i j Hij Hj _ Hflag He.
    assert (H : nth j (duplicated df) false = true);
      [|congruence].
    apply duplicated_spec; [exact Hj|]. now exists i.
  - split.
    + rewrite sum_bool_zero. split.
      * intros Hnone i j Hij Hj He.
        assert (H : nth j (duplicated df) false = true);
          [|rewrite Hnone in H; discriminate].
        apply duplicated_spec; [exact Hj|]. now exists i.
      * intros Hdistinct j.
        destruct (nth j (duplicated df) false) eqn:E; [|reflexivity].
        assert (Hj : j < length (rows df)).
        { destruct (Nat.lt_ge_cases j (length (rows df))) as [H|H];
            [exact H|].
          rewrite nth_overflow in E; [discriminate|].
          unfold duplicated. now rewrite duplicated_from_length. }
        apply duplicated_spec in E; [|exact Hj].
        destruct E as [i [Hi He]]. now elim (Hdistinct i j Hi Hj).
    + unfold duplicates_panel.
      destruct (sum_bool (duplicated df)) as [|n] eqn:E.
      * split; reflexivity.
      * split; [discriminate|]. cbn. intros H. inversion H.
Qed.

Lemma duplicated_from_snoc (rs : list row) (r : row) :
  forall seen,
    duplicated_from seen (rs ++ [r])
    = (duplicated_from seen rs
         ++ [existsb (row_eqb r) (rev rs ++ seen)])%list.
Proof.
  induction rs as [|a rs IH]; intros seen; simpl; [reflexivity|].
  rewrite IH. now rewrite <- app_assoc.
Qed.

Lemma sum_bool_snoc (mask : list bool) (b : bool) :
  sum_bool (mask ++ [b]) = sum_bool mask + b2n b.
Proof.
  unfold sum_bool. rewrite filter_app, length_app.
  now destruct b.
Qed.

Lemma existsb_row_eq (r : row) (rs : list row) :
  existsb (row_eqb r) (rev rs ++ []) = true
  <-> exists s, In s rs /\ row_eq s r.
Proof.
  rewrite app_nil_r, existsb_exists. split.
  - intros [s [Hs He]]. exists s. split; [now apply in_rev|].
    apply row_eq_sym. now apply row_eqb_eq.
  - intros [s [Hs He]]. exists s. split; [now apply in_rev in Hs|].
    apply row_eqb_eq. now apply row_eq_sym.
Qed.

(** X11.  One more row at the end of a frame: the marks of the rows
    before it do not change; the new row is marked exactly when one of
    the earlier rows is identical to it, and then the duplicate count
    grows by exactly one; otherwise the count stays the same. *)
Theorem duplicate_of_appended_row (df : DataFrame) (r : row) :
  let more := {| header := header df; rows := (rows df ++ [r])%list |} in
  (exists mark,
     duplicated more = (duplicated df ++ [mark])%list
     /\ (mark = true <-> exists s, In s (rows df) /\ row_eq s r))
  /\ ((exists s, In s (rows df) /\ row_eq s r) ->
      sum_bool (duplicated more) = S (sum_bool (duplicated df))
      /\ nth (length (rows df)) (duplicated more) false = true)
  /\ ((forall s, In s (rows df) -> ~ row_eq s r) ->
      sum_bool (duplicated more) = sum_bool (duplicated df)
      /\ nth (length (rows df)) (duplicated more) false = false).
Proof.
  cbv zeta.
  assert (Hmore : duplicated {| header := header df;
                                rows := (rows df ++ [r])%list |}
                  = (duplicated df
                       ++ [existsb (row_eqb r) (rev (rows df) ++ [])])%list).
  { unfold duplicated. cbn [rows]. apply duplicated_from_snoc. }
  rewrite Hmore. clear Hmore.
  pose proof (existsb_row_eq r (rows df)) as Hmark.
  assert (Hlast : forall b,
             nth (length (rows df)) (duplicated df ++ [b]) false = b).
  { intros b. rewrite app_nth2;
      unfold duplicated; rewrite duplicated_from_length; [|lia].
    now rewrite Nat.sub_diag. }
  split; [eexists; split; [reflexivity | exact Hmark]|].
  rewrite sum_bool_snoc, Hlast. split.
  - intros H. apply Hmark in H. rewrite H. cbn [b2n]. split; [lia|].
    reflexivity.
  - intros H.
    destruct (existsb (row_eqb r) (rev (rows df) ++ [])) eqn:E.
    + destruct (proj1 Hmark eq_refl) as [s [Hs He]]. now elim (H s Hs).
    + cbn [b2n]. split; [lia | reflexivity].
Qed.

(** ** The quartiles of a column *)

Section Quartiles.
Local Open Scope Q_scope.

Lemma floor_in_range (h : Q) (m : Z) :
  0 <= h -> h <= inject_Z m -> (0 <= Qfloor h <= m)%Z.
Proof.
  intros H0 Hm. split.
  - change 0%Z with (Qfloor 0). now apply Qfloor_resp_le.
  - rewrite <- (Qfloor_Z m). now apply Qfloor_resp_le.
Qed.

Lemma ceiling_in_range (h : Q) (m : Z) :
  0 <= h -> h <= inject_Z m -> (0 <= Qceiling h <= m)%Z.
Proof.
  intros H0 Hm. split.
  - change 0%Z with (Qceiling 0). now apply Qceiling_resp_le.
  - rewrite <- (Qceiling_Z m). now apply Qceiling_resp_le.
Qed.

Lemma ceiling_near_floor (h : Q) :
  (Qfloor h <= Qceiling h <= Qfloor h + 1)%Z.
Proof.
  split; [rewrite Zle_Qle; apply Qle_floor_ceiling|].
  pose proof (Qlt_floor h) as H1. pose proof (Qceiling_lt h) as H2.
  assert (H : (Qceiling h - 1 < Qfloor h + 1)%Z)
    by (rewrite Zlt_Qlt; eapply Qlt_trans; eassumption).
  lia.
Qed.

Variable arr : list Q.
Hypothesis Hsorted : Sorted Qle arr.

Lemma sorted_nth (i j : nat) :
  (i <= j)%nat -> (j < length arr)%nat -> nth i arr 0 <= nth j arr 0.
Proof.
  assert (Hs : StronglySorted Qle arr).
  { apply Sorted_StronglySorted; [|exact Hsorted].
    intros x y z. apply Qle_trans. }
  clear Hsorted. revert i j.
  induction Hs as [|a l Hl IH Hall]; intros i j Hij Hj;
    [simpl in Hj; lia|].
  destruct j as [|j]; [replace i with 0%nat by lia; apply Qle_refl|].
  destruct i as [|i]; cbn [nth].
  - rewrite Forall_forall in Hall. apply Hall. apply nth_In.
    simpl in Hj. lia.
  - apply IH; simpl in Hj; lia.
Qed.

Lemma sorted_positions (i j : Z) :
  (0 <= i)%Z -> (i <= j)%Z -> (j <= Zlen arr - 1)%Z ->
  nth (Z.to_nat i) arr 0 <= nth (Z.to_nat j) arr 0.
Proof.
  unfold Zlen. intros H0 Hij Hj. apply sorted_nth; lia.
Qed.

Hypothesis Harr : arr <> [].

(** The percentile lies between its two neighbours. *)
Lemma percentile_between (q : Q) :
  0 <= q -> q <= 1 ->
  let h := q * inject_Z (Zlen arr - 1) in
  nth (Z.to_nat (Qfloor h)) arr 0 <= percentile_spec arr q
  /\ percentile_spec arr q <= nth (Z.to_nat (Qceiling h)) arr 0.
Proof.
  intros Hq0 Hq1 h.
  destruct (virtual_index_bounds Harr Hq0 Hq1) as [Hh0 Hh1]. fold h in Hh0, Hh1.
  destruct (floor_in_range Hh0 Hh1) as [Hf0 Hf1].
  destruct (ceiling_in_range Hh0 Hh1) as [Hc0 Hc1].
  destruct (ceiling_near_floor h) as [Hfc Hcf].
  unfold percentile_spec. fold h.
  pose proof (sorted_positions Hf0 Hfc Hc1) as Hab.
  pose proof (Qfloor_le h) as Ht0. pose proof (Qlt_floor h) as Ht1.
  rewrite inject_Z_plus in Ht1.
  set (a := nth (Z.to_nat (Qfloor h)) arr 0) in *.
  set (b := nth (Z.to_nat (Qceiling h)) arr 0) in *.
  set (l := inject_Z (Qfloor h)) in *.
  change (inject_Z 1) with 1 in Ht1.
  split; Lqa.nra.
Qed.

(** The percentile does not decrease with the fraction. *)
Lemma percentile_monotone (p q : Q) :
  0 <= p -> p <= q -> q <= 1 ->
  percentile_spec arr p <= percentile_spec arr q.
Proof.
  intros Hp0 Hpq Hq1.
  assert (Hp1 : p <= 1) by (eapply Qle_trans; eassumption).
  assert (Hq0 : 0 <= q) by (eapply Qle_trans; eassumption).
  destruct (percentile_between Hp0 Hp1) as [_ Hpb].
  destruct (percentile_between Hq0 Hq1) as [Hqa _].
  cbv zeta in *.
  pose proof (@Zlen_pos arr Harr) as Hn.
  assert (Hm : 0 <= inject_Z (Zlen arr - 1)).
  { change 0 with (inject_Z 0). rewrite <- Zle_Qle. lia. }
  set (m := inject_Z (Zlen arr - 1)) in *.
  assert (Hh : p * m <= q * m) by now apply Qmult_le_compat_r.
  destruct (virtual_index_bounds Harr Hp0 Hp1) as [Hh0 Hh1].
  destruct (virtual_index_bounds Harr Hq0 Hq1) as [Hk0 Hk1].
  fold m in Hh0, Hh1, Hk0, Hk1.
  destruct (floor_in_range Hh0 Hh1) as [Hf0 Hf1].
  destruct (floor_in_range Hk0 Hk1) as [Hg0 Hg1].
  destruct (ceiling_in_range Hk0 Hk1) as [Hd0 Hd1].
  destruct (ceiling_near_floor (p * m)) as [Hfc Hcf].
  destruct (ceiling_near_floor (q * m)) as [Hgd Hdg].
  pose proof (Qfloor_resp_le _ _ Hh) as Hfl.
  pose proof (Qceiling_resp_le _ _ Hh) as Hcl.
  destruct (Z.eq_dec (Qfloor (p * m)) (Qfloor (q * m))) as [Efl|Nfl].
  - destruct (Z.eq_dec (Qceiling (p * m)) (Qfloor (p * m))) as [Ec|Nc].
    + (* the first index is an integer *)
      eapply Qle_trans; [|exact Hqa]. rewrite <- Efl.
      unfold percentile_spec. fold m. rewrite Ec.
      apply Qle_lteq. right. ring.
    + (* both indices lie strictly between the same two positions *)
      assert (Ec : Qceiling (p * m) = (Qfloor (p * m) + 1)%Z) by lia.
      assert (Ed : Qceiling (q * m) = (Qfloor (p * m) + 1)%Z) by lia.
      unfold percentile_spec. fold m. rewrite Ec, Ed, <- Efl.
      assert (Hab : nth (Z.to_nat (Qfloor (p * m))) arr 0
                    <= nth (Z.to_nat (Qfloor (p * m) + 1)) arr 0)
        by (apply sorted_positions; lia).
      set (a := nth (Z.to_nat (Qfloor (p * m))) arr 0) in *.
      set (b := nth (Z.to_nat (Qfloor (p * m) + 1)) arr 0) in *.
      set (l := inject_Z (Qfloor (p * m))) in *.
      Lqa.nra.
  - (* the second index is past the neighbours of the first *)
    eapply Qle_trans; [exact Hpb|]. eapply Qle_trans; [|exact Hqa].
    apply sorted_positions; lia.
Qed.
End Quartiles.

Section Fences.
Local Open Scope Q_scope.

Lemma sort_nonempty (l : list Q) : l <> [] -> sort l <> [].
Proof.
  intros Hl E. apply Hl. apply Permutation_nil.
  rewrite <- E. apply sort_perm.
Qed.

Lemma quantile_of_values (l : list Q) (p : Q) :
  l <> [] ->
  match sort l with
  | [] => NaN
  | arr => Fin (linear_quantile arr p)
  end = Fin (linear_quantile (sort l) p).
Proof.
  intros Hl. pose proof (sort_nonempty Hl) as Hs.
  destruct (sort l); [congruence | reflexivity].
Qed.

Variable s : list cell.
Hypothesis Hvalues : dropna s <> [].

(** A quantile of a series lies between two of its values. *)
Lemma quantile_range (p : Q) :
  0 <= p -> p <= 1 ->
  exists a b,
    In (Num a) s /\ In (Num b) s
    /\ a <= linear_quantile (sort (dropna s)) p
    /\ linear_quantile (sort (dropna s)) p <= b.
Proof.
  intros Hp0 Hp1.
  pose proof (sort_nonempty Hvalues) as Harr.
  pose proof (sort_sorted (dropna s)) as Hsorted.
  destruct (percentile_between Hsorted Harr Hp0 Hp1) as [Ha Hb].
  destruct (virtual_index_bounds Harr Hp0 Hp1) as [Hh0 Hh1].
  destruct (floor_in_range Hh0 Hh1) as [Hf0 Hf1].
  destruct (ceiling_in_range Hh0 Hh1) as [Hc0 Hc1].
  assert (Hin : forall i : Z,
             (0 <= i <= Zlen (sort (dropna s)) - 1)%Z ->
             In (Num (nth (Z.to_nat i) (sort (dropna s)) 0)) s).
  { intros i Hi. apply in_dropna.
    apply (Permutation_in _ (sort_perm (dropna s))).
    apply nth_In. unfold Zlen in Hi. lia. }
  eexists _, _. split; [apply (Hin _ (conj Hf0 Hf1))|].
  split; [apply (Hin _ (conj Hc0 Hc1))|].
  rewrite (linear_quantile_spec Harr Hp0 Hp1). now split.
Qed.

(** The first quartile is not above the third. *)
Lemma quartile_order :
  linear_quantile (sort (dropna s)) (1 # 4)
  <= linear_quantile (sort (dropna s)) (3 # 4).
Proof.
  pose proof (sort_nonempty Hvalues) as Harr.
  rewrite (linear_quantile_spec Harr (proj1 quarter_bounds)
                                (proj2 quarter_bounds)).
  rewrite (linear_quantile_spec Harr (proj1 three_quarter_bounds)
                                (proj2 three_quarter_bounds)).
  apply percentile_monotone;
    [apply sort_sorted | exact Harr | discriminate ..].
Qed.
End Fences.

Lemma no_rows (A : Type) (l : list A) : (forall x, ~ In x l) -> l = [].
Proof.
  destruct l as [|x l]; [reflexivity|]. intros H. elim (H x). now left.
Qed.

Lemma in_column_at (j : nat) (r : row) (rs : list row) :
  In r rs -> In (nth j r NA) (column_at j rs).
Proof. intros H. unfold column_at. apply in_map_iff. now exists r. Qed.

(** X12.  The report of [outlier_detection] (app2.py) on a column without
    text that holds at least one number: both quartiles are numbers of the
    range of the column (each lies between two values of the column), the
    first quartile is not above the third, the IQR is not negative, the
    lower fence is not above the first quartile and the upper fence not
    below the third; so a row whose value lies between the quartiles is
    never among the outliers, and neither is a row whose cell is missing. *)
Theorem quartiles_and_fences (df : DataFrame) (column : string) (j : nat) :
  index_of column (columns df) = Some j ->
  existsb is_str (column_at j (rows df)) = false ->
  dropna (column_at j (rows df)) <> [] ->
  exists (report : App2.OutlierReport) (q1 q3 : Q),
    App2.outlier_detection df column = Ok report
    /\ App2.Q1 report = Fin q1
    /\ App2.Q3 report = Fin q3
    /\ App2.IQR report = Fin (q3 - q1)
    /\ App2.lower_bound report = Fin (q1 - (3 # 2) * (q3 - q1))
    /\ App2.upper_bound report = Fin (q3 + (3 # 2) * (q3 - q1))
    /\ (q1 <= q3)%Q
    /\ (0 <= q3 - q1)%Q
    /\ (q1 - (3 # 2) * (q3 - q1) <= q1)%Q
    /\ (q3 <= q3 + (3 # 2) * (q3 - q1))%Q
    /\ (exists a b,
          In (Num a) (column_at j (rows df))
          /\ In (Num b) (column_at j (rows df))
          /\ (a <= q1)%Q /\ (q3 <= b)%Q)
    /\ (forall r,
          In r (rows (App2.outliers report)) ->
          exists v, nth j r NA = Num v /\ (v < q1 \/ q3 < v)%Q).
Proof.
  intros Hj Hs Hvalues.
  pose proof (outlier_detection_numeric df column Hj Hs) as Hrep.
  cbv zeta in Hrep.
  rewrite !(quantile_of_values _ Hvalues) in Hrep.
  set (q1 := linear_quantile (sort (dropna (column_at j (rows df)))) (1 # 4))
    in *.
  set (q3 := linear_quantile (sort (dropna (column_at j (rows df)))) (3 # 4))
    in *.
  pose proof (@quartile_order _ Hvalues) as Hord. fold q1 q3 in Hord.
  destruct (@quantile_range _ Hvalues _ (proj1 quarter_bounds)
                           (proj2 quarter_bounds)) as [a [b0 [Ha [_ [Haq _]]]]].
  destruct (@quantile_range _ Hvalues _ (proj1 three_quarter_bounds)
                           (proj2 three_quarter_bounds))
    as [a0 [b [_ [Hb [_ Hqb]]]]].
  fold q1 in Haq. fold q3 in Hqb.
  eexists _, q1, q3. split; [exact Hrep|].
  cbn [App2.Q1 App2.Q3 App2.IQR App2.lower_bound App2.upper_bound
       App2.outliers fsub fadd fmul].
  do 5 (split; [reflexivity|]).
  split; [exact Hord|].
  split; [Lqa.lra|]. split; [Lqa.lra|]. split; [Lqa.lra|].
  split; [now exists a, b|].
  intros r Hr. apply outlier_rows in Hr. destruct Hr as [_ Hr].
  destruct (nth j r NA) as [v| |]; cbn [to_float flt] in Hr; try tauto.
  exists v. split; [reflexivity|].
  destruct Hr as [Hr|Hr]; [left | right]; Lqa.lra.
Qed.

Lemma quartiles_and_fences_witness :
  exists (report : App2.OutlierReport) (q1 q3 : Q),
    App2.outlier_detection scenario_frame "A" = Ok report
    /\ App2.Q1 report = Fin q1
    /\ App2.Q3 report = Fin q3
    /\ App2.IQR report = Fin (q3 - q1)
    /\ App2.lower_bound report = Fin (q1 - (3 # 2) * (q3 - q1))
    /\ App2.upper_bound report = Fin (q3 + (3 # 2) * (q3 - q1))
    /\ (q1 <= q3)%Q
    /\ (0 <= q3 - q1)%Q
    /\ (q1 - (3 # 2) * (q3 - q1) <= q1)%Q
    /\ (q3 <= q3 + (3 # 2) * (q3 - q1))%Q
    /\ (exists a b,
          In (Num a) (column_at 0 (rows scenario_frame))
          /\ In (Num b) (column_at 0 (rows scenario_frame))
          /\ (a <= q1)%Q /\ (q3 <= b)%Q)
    /\ (forall r,
          In r (rows (App2.outliers report)) ->
          exists v, nth 0 r NA = Num v /\ (v < q1 \/ q3 < v)%Q).
Proof.
  apply (@quartiles_and_fences scenario_frame "A" 0);
    [reflexivity | reflexivity | discriminate].
Defined.

(** X13.  A column without text whose numbers are all equal to [v]:
    [outlier_detection] (app2.py) reports both quartiles equal to [v], an
    IQR of zero and both fences at [v], and no row is an outlier. *)
Theorem constant_column_report
        (df : DataFrame) (column : string) (j : nat) (v : Q) :
  index_of column (columns df) = Some j ->
  existsb is_str (column_at j (rows df)) = false ->
  dropna (column_at j (rows df)) <> [] ->
  (forall x, In (Num x) (column_at j (rows df)) -> (x == v)%Q) ->
  exists report : App2.OutlierReport,
    App2.outlier_detection df column = Ok report
    /\ feq (App2.Q1 report) (Fin v)
    /\ feq (App2.Q3 report) (Fin v)
    /\ feq (App2.IQR report) (Fin 0)
    /\ feq (App2.lower_bound report) (Fin v)
    /\ feq (App2.upper_bound report) (Fin v)
    /\ rows (App2.outliers report) = [].
Proof.
  intros Hj Hs Hvalues Hconst.
  pose proof (outlier_detection_numeric df column Hj Hs) as Hrep.
  cbv zeta in Hrep.
  rewrite !(quantile_of_values _ Hvalues) in Hrep.
  set (q1 := linear_quantile (sort (dropna (column_at j (rows df)))) (1 # 4))
    in *.
  set (q3 := linear_quantile (sort (dropna (column_at j (rows df)))) (3 # 4))
    in *.
  destruct (@quantile_range _ Hvalues _ (proj1 quarter_bounds)
                           (proj2 quarter_bounds))
    as [a1 [b1 [Ha1 [Hb1 [Haq1 Hqb1]]]]].
  destruct (@quantile_range _ Hvalues _ (proj1 three_quarter_bounds)
                           (proj2 three_quarter_bounds))
    as [a3 [b3 [Ha3 [Hb3 [Haq3 Hqb3]]]]].
  fold q1 in Haq1, Hqb1. fold q3 in Haq3, Hqb3.
  apply Hconst in Ha1, Hb1, Ha3, Hb3.
  assert (E1 : (q1 == v)%Q) by Lqa.lra.
  assert (E3 : (q3 == v)%Q) by Lqa.lra.
  eexists. split; [exact Hrep|].
  cbn [App2.Q1 App2.Q3 App2.IQR App2.lower_bound App2.upper_bound
       App2.outliers fsub fadd fmul feq].
  split; [exact E1|]. split; [exact E3|].
  split; [Lqa.lra|]. split; [Lqa.lra|]. split; [Lqa.lra|].
  apply no_rows. intros r Hr. apply outlier_rows in Hr.
  destruct Hr as [Hin Hr]. apply (in_column_at j) in Hin.
  destruct (nth j r NA) as [x| |]; cbn [to_float flt] in Hr; try tauto.
  apply Hconst in Hin. destruct Hr as [Hr|Hr]; Lqa.lra.
Qed.

Lemma constant_column_report_witness :
  exists report : App2.OutlierReport,
    App2.outlier_detection constant_frame "A" = Ok report
    /\ feq (App2.Q1 report) (Fin 7)
    /\ feq (App2.Q3 report) (Fin 7)
    /\ feq (App2.IQR report) (Fin 0)
    /\ feq (App2.lower_bound report) (Fin 7)
    /\ feq (App2.upper_bound report) (Fin 7)
    /\ rows (App2.outliers report) = [].
Proof.
  apply (@constant_column_report constant_frame "A" 0 7);
    [reflexivity | reflexivity | discriminate |].
  intros x Hx. simpl in Hx.
  destruct Hx as [Hx|[Hx|[Hx|[]]]]; inversion Hx; reflexivity.
Defined.

(** X14.  A column that holds neither a text nor a number (missing cells
    only, or no rows): [outlier_detection] (app2.py) does not raise; every
    statistic of its report is NaN and no row is an outlier. *)
Theorem missing_column_report (df : DataFrame) (column : string) (j : nat) :
  index_of column (columns df) = Some j ->
  existsb is_str (column_at j (rows df)) = false ->
  dropna (column_at j (rows df)) = [] ->
  exists report : App2.OutlierReport,
    App2.outlier_detection df column = Ok report
    /\ App2.Q1 report = NaN
    /\ App2.Q3 report = NaN
    /\ App2.IQR report = NaN
    /\ App2.lower_bound report = NaN
    /\ App2.upper_bound report = NaN
    /\ rows (App2.outliers report) = [].
Proof.
  intros Hj Hs Hvalues.
  pose proof (outlier_detection_numeric df column Hj Hs) as Hrep.
  cbv zeta in Hrep. rewrite Hvalues in Hrep. cbn [sort] in Hrep.
  eexists. split; [exact Hrep|].
  cbn [App2.Q1 App2.Q3 App2.IQR App2.lower_bound App2.upper_bound
       App2.outliers fsub fadd fmul].
  do 5 (split; [reflexivity|]).
  apply no_rows. intros r Hr. apply outlier_rows in Hr.
  destruct Hr as [_ Hr].
  destruct (nth j r NA); cbn [to_float flt] in Hr; tauto.
Qed.

Lemma missing_column_report_witness :
  exists report : App2.OutlierReport,
    App2.outlier_detection missing_frame "A" = Ok report
    /\ App2.Q1 report = NaN
    /\ App2.Q3 report = NaN
    /\ App2.IQR report = NaN
    /\ App2.lower_bound report = NaN
    /\ App2.upper_bound report = NaN
    /\ rows (App2.outliers report) = [].
Proof.
  apply (@missing_column_report missing_frame "A" 0); reflexivity.
Defined.

(** ** The entries of the correlation matrix *)

Section Constant.
Local Open Scope Q_scope.

Lemma square_zero (a : Q) : a * a == 0 -> a == 0.
Proof. intros H. apply Qmult_integral in H. tauto. Qed.

Lemma square_sum_zero (m : Q) (l : list Q) :
  qsum (map (fun p => (fst p - m) * (snd p - m)) (combine l l)) == 0 ->
  forall x, In x l -> x == m.
Proof.
  induction l as [|u l IH]; simpl; [tauto|]. intros H x Hx.
  pose proof (square_nonneg (u - m)) as H1.
  pose proof (square_sum_nonneg m l) as H2.
  destruct Hx as [<-|Hx].
  - assert (E : (u - m) * (u - m) == 0) by Lqa.lra.
    apply square_zero in E. Lqa.lra.
  - apply IH; [Lqa.lra | exact Hx].
Qed.

Lemma square_sum_const (m : Q) (l : list Q) :
  (forall x, In x l -> x == m) ->
  qsum (map (fun p => (fst p - m) * (snd p - m)) (combine l l)) == 0.
Proof.
  induction l as [|u l IH]; simpl; [reflexivity|]. intros H.
  rewrite IH by (intros x Hx; apply H; now right).
  pose proof (H u (or_introl eq_refl)) as Hu.
  setoid_replace (u - m) with 0 by Lqa.lra. ring.
Qed.

Lemma qsum_const (v : Q) (l : list Q) :
  (forall x, In x l -> x == v) -> qsum l == inject_Z (Zlen l) * v.
Proof.
  induction l as [|u l IH]; intros H.
  - simpl. unfold Zlen. simpl. ring.
  - cbn [qsum fold_right]. fold (qsum l).
    rewrite IH by (intros x Hx; apply H; now right).
    pose proof (H u (or_introl eq_refl)) as Hu.
    unfold Zlen. cbn [length]. rewrite Nat2Z.inj_succ.
    unfold Z.succ. rewrite inject_Z_plus.
    setoid_replace u with v by exact Hu. ring.
Qed.

Lemma mean_const (v : Q) (l : list Q) :
  l <> [] -> (forall x, In x l -> x == v) -> mean l == v.
Proof.
  intros Hl H. unfold mean. rewrite (@qsum_const v l H).
  pose proof (@Zlen_positive _ l Hl) as Hn. field. Lqa.lra.
Qed.

(** The sum of squared deviations vanishes exactly on a list of equal
    numbers. *)
Lemma codeviation_zero (l : list Q) :
  l <> [] -> (codeviation l l == 0 <-> constant l).
Proof.
  intros Hl. unfold codeviation. split.
  - intros H x y Hx Hy.
    rewrite (@square_sum_zero _ _ H x Hx), (@square_sum_zero _ _ H y Hy).
    reflexivity.
  - intros H. destruct l as [|x0 l0] eqn:E; [congruence|].
    rewrite <- E in *.
    assert (Hx0 : In x0 l) by (rewrite E; now left).
    apply square_sum_const. intros x Hx.
    rewrite (@mean_const x0 l Hl (fun y Hy => H y x0 Hy Hx0)).
    now apply H.
Qed.
End Constant.

Lemma clip_range (v : R) : (-1 <= clip v <= 1)%R.
Proof.
  unfold clip. destruct (Rlt_dec 1 v); [lra|].
  destruct (Rlt_dec v (-1)); lra.
Qed.

(** The coefficient, when defined, lies within [-1, 1]. *)
Lemma pearson_range (xs ys : list cell) (r : R) :
  pearson xs ys = Some r -> (-1 <= r <= 1)%R.
Proof.
  rewrite <- nancorr_pearson. unfold nancorr_entry.
  destruct (nobs (scan xs ys) <? 1)%Z; [discriminate|].
  destruct (Req_EM_T _ 0); [discriminate|].
  intros [= <-]. apply clip_range.
Qed.

(** The coefficient is undefined exactly when no row holds a number in
    both columns, or one of the columns does not vary over these rows. *)
Lemma pearson_undefined (xs ys : list cell) :
  pearson xs ys = None
  <-> complete_pairs xs ys = []
      \/ constant (map fst (complete_pairs xs ys))
      \/ constant (map snd (complete_pairs xs ys)).
Proof.
  unfold pearson.
  destruct (complete_pairs xs ys) as [|p ps] eqn:E; [tauto|].
  rewrite <- E.
  assert (Hu : map fst (complete_pairs xs ys) <> [])
    by (rewrite E; discriminate).
  assert (Hv : map snd (complete_pairs xs ys) <> [])
    by (rewrite E; discriminate).
  rewrite <- (@codeviation_zero _ Hu), <- (@codeviation_zero _ Hv).
  destruct (Qeq_bool _ 0) eqn:EP.
  - apply Qeq_bool_iff in EP. apply Qmult_integral in EP.
    split; [tauto | reflexivity].
  - apply Qeq_bool_neq in EP. split; [discriminate|].
    intros [H|[H|H]].
    + rewrite E in H. discriminate.
    + elim EP. rewrite H. ring.
    + elim EP. rewrite H. ring.
Qed.





(** ** Before an upload, and uploads that do not parse *)

(** X17.  The guards of the callbacks.  [process_file] of app.py stores
    nothing exactly when nothing is uploaded; [render_tab] of app.py shows
    the upload prompt exactly when nothing is stored, whatever the tab;
    [update_boxplot] answers with its placeholder figure exactly when the
    data or the column is missing (the titled empty box plot in app.py, the
    empty figure in app1.py and app2.py), and app2.py hides the outlier
    container in that case only. *)
Theorem placeholders_without_upload {grammar : NumberGrammar} :
  (forall contents,
      App.process_file contents = Ok None <-> contents = None)
  /\ (forall tab data,
        App.render_tab tab data = Ok upload_prompt <-> data = None)
  /\ (forall column data,
        App.update_boxplot column data = Ok NoData
        <-> data = None \/ column = None)
  /\ (forall column contents,
        App1.update_boxplot column contents = Ok EmptyFigure
        <-> contents = None \/ column = None)
  /\ (forall column contents fig,
        App2.update_boxplot column contents = Ok (fig, DisplayNone)
        <-> fig = EmptyFigure /\ (contents = None \/ column = None)).
Proof.
  split; [|split; [|split; [|split]]].
  - intros [c|]; [|tauto]. simpl. split; [|discriminate].
    destruct (read_csv c); discriminate.
  - intros tab [d|]; [|tauto]. split; [|discriminate].
    destruct (corr_numeric (from_records d)) as [sub Hsub].
    unfold App.render_tab, upload_prompt, tab_not_found.
    fold (num_cols (from_records d)).
    destruct (tab =? "overview"); [discriminate|].
    destruct (tab =? "correlation").
    { destruct (num_cols (from_records d)); [discriminate|].
      rewrite Hsub. discriminate. }
    destruct (tab =? "boxplots");
      [destruct (num_cols (from_records d)); discriminate|].
    destruct (tab =? "missing"); [discriminate|].
    destruct (tab =? "duplicates"); discriminate.
  - intros [column|] [d|]; simpl; try tauto.
    split; [|intros [H|H]; discriminate].
    unfold px_box. destruct (index_of _ _); discriminate.
  - intros [column|] [c|]; simpl; try tauto.
    split; [|intros [H|H]; discriminate].
    destruct (App1.parse_contents c); [|discriminate]. cbn [bind].
    unfold px_box. destruct (index_of _ _); discriminate.
  - intros [column|] [c|] fig; simpl;
      try (split; [intros [= <-]; tauto | now intros [-> _]]).
    split; [|intros [_ [H|H]]; discriminate].
    destruct (App2.parse_contents c); [|discriminate]. cbn [bind].
    destruct (App2.outlier_detection _ _); discriminate.
Qed.

Lemma read_csv_failure {grammar : NumberGrammar} (c : Csv) :
  match read_csv c with
  | Ok df => csv_header c <> []
             /\ forall line, In line (csv_body c) ->
                             length line <= length (csv_header c)
  | Raise e =>
      (e = EmptyDataError /\ csv_header c = [])
      \/ (e = ParserError /\ csv_header c <> []
          /\ exists line, In line (csv_body c)
                          /\ length (csv_header c) < length line)
  end.
Proof.
  unfold read_csv. destruct (csv_header c) as [|h hs] eqn:E; [now left|].
  rewrite <- E.
  assert (Hh : csv_header c <> []) by (rewrite E; discriminate).
  destruct (existsb _ (csv_body c)) eqn:Ex.
  - right. split; [reflexivity|]. split; [exact Hh|].
    apply existsb_exists in Ex. destruct Ex as [line [Hin Hlt]].
    exists line. split; [exact Hin|]. now apply Nat.ltb_lt.
  - split; [exact Hh|]. intros line Hin.
    destruct (Nat.ltb (length (csv_header c)) (length line)) eqn:El.
    + assert (Ht : existsb (fun line => length (csv_header c) <? length line)%nat
                           (csv_body c) = true)
        by (apply existsb_exists; now exists line).
      congruence.
    + apply Nat.ltb_ge in El. exact El.
Qed.

